(** * Blink detection: matched filter, streaming detector, batch recalculation

    A shallow embedding of [pupil_src/shared_modules/blink_detection.py]:
    the streaming plugin [Blink_Detection.recent_events] and the batch
    plugin [Offline_Blink_Detection.recalculate].

    Numbers.  Python floats are idealised as exact rationals ([Q]); every
    statement below is about exact arithmetic and is read up to [Qeq]
    ([==]) where a number is computed, and up to [=] where a value is only
    copied.  Python ints are [Z], lengths are [nat].

    Exceptions.  The three built-in exceptions the code can raise on
    well-typed input are [IndexError], [ZeroDivisionError] and
    [ValueError]; a fallible step returns a [result].

    Scope.  Menus, OpenGL drawing, the timeline, notifications and logging
    are host glue and are not modelled. *)

From Stdlib Require Import QArith Qround Qabs Qminmax Lqa Lia ZArith List.
From stdpp Require Import list strings gmap.

Local Open Scope Q_scope.

(** ** Python and numpy primitives used by the plugin *)

Inductive exn : Type :=
| IndexError
| ZeroDivisionError
| ValueError.

Inductive result (A : Type) : Type :=
| Ok (a : A)
| Raise (e : exn).

Arguments Ok {A} a.
Arguments Raise {A} e.

(** Sequencing: an exception ends the computation. *)
#[global] Instance result_bind : MBind result := fun A B k m =>
  match m with
  | Ok a => k a
  | Raise e => Raise e
  end.

(** [x < y] on floats, as a boolean. *)
Definition Qltb (x y : Q) : bool := negb (Qle_bool y x).

(** [l[i]] for a Python int [i]: negative indices count from the end,
    anything outside [-len, len) raises [IndexError]. *)
Definition py_index {A : Type} (l : list A) (i : Z) : result A :=
  let n := Z.of_nat (length l) in
  let j := if (i <? 0)%Z then (n + i)%Z else i in
  if (j <? 0)%Z then Raise IndexError
  else match l !! Z.to_nat j with
       | Some x => Ok x
       | None => Raise IndexError
       end.

(** [x / y] on Python floats. *)
Definition py_truediv (x y : Q) : result Q :=
  if Qeq_bool y 0 then Raise ZeroDivisionError else Ok (x / y).

(** [round(x)] with one argument: nearest integer, ties to even. *)
Definition py_round (x : Q) : Z :=
  let f := Qfloor x in
  match Qcompare (x - inject_Z f) (1 # 2) with
  | Lt => f
  | Gt => (f + 1)%Z
  | Eq => if Z.even f then f else (f + 1)%Z
  end.

(** [np.ones(n)]: a negative dimension is a [ValueError]. *)
Definition np_ones (n : Z) : result (list Q) :=
  if (n <? 0)%Z then Raise ValueError else Ok (repeat 1 (Z.to_nat n)).

(** [a[start:] *= k] for a Python int [start] (slice bounds are clipped). *)
Definition imul_from (start : Z) (k : Q) (a : list Q) : list Q :=
  let n := Z.of_nat (length a) in
  let s := if (start <? 0)%Z then Z.max (n + start) 0 else Z.min start n in
  take (Z.to_nat s) a ++ map (fun x => x * k) (drop (Z.to_nat s) a).

Fixpoint sum_products (a b : list Q) : Q :=
  match a, b with
  | x :: a', y :: b' => x * y + sum_products a' b'
  | _, _ => 0
  end.

(** [a @ b] on one-dimensional arrays: the shapes must agree. *)
Definition np_dot (a b : list Q) : result Q :=
  if (length a =? length b)%nat then Ok (sum_products a b) else Raise ValueError.

(** Element-wise sum, the longer operand keeping its tail. *)
Fixpoint add_padded (a b : list Q) : list Q :=
  match a, b with
  | x :: a', y :: b' => (x + y) :: add_padded a' b'
  | [], _ => b
  | _, [] => a
  end.

(** Full discrete convolution: [(a * v)[k] = sum_m a[m] * v[k - m]]. *)
Fixpoint convolve_full (a v : list Q) : list Q :=
  match a with
  | [] => []
  | x :: a' => add_padded (map (Qmult x) v) (0 :: convolve_full a' v)
  end.

(** [np.convolve(a, v, 'same')]: the operands are swapped so that [a] is
    the longer one, an empty operand is a [ValueError], and the result is
    the centred slice of the full convolution, of length [max(M, N)],
    starting at offset [(N - 1) // 2] where [N] is the shorter length. *)
Definition np_convolve_same (a v : list Q) : result (list Q) :=
  let '(a, v) := if (length a <? length v)%nat then (v, a) else (a, v) in
  match a, v with
  | [], _ => Raise ValueError
  | _, [] => Raise ValueError
  | _, _ =>
      Ok (take (length a) (drop ((length v - 1) / 2) (convolve_full a v)))
  end.

(** ** Data model *)

(** A pupil datum, of which the plugin reads two keys. *)
Record sample : Type := Sample {
  timestamp : Q;
  confidence : Q
}.

Inductive blink_type : Type := onset | offset.

(** The dict built at lines 97-104; its keys ['type'], ['confidence'] and
    ['timestamp'] are the fields [type_], [blink_confidence] and
    [blink_timestamp]. *)
Record blink_entry : Type := BlinkEntry {
  topic : string;
  type_ : blink_type;
  blink_confidence : Q;
  base_data : list sample;
  blink_timestamp : Q;
  record : bool
}.

(** The [events] dict, restricted to the two keys the plugin touches; a
    key that is absent is [None]. *)
Record events : Type := Events {
  pupil_positions : option (list sample);
  blinks : option (list blink_entry)
}.

(** The fields of a [Blink_Detection] instance that the detection reads
    or writes; [history] is the deque, [recent_blink] is [_recent_blink]. *)
Record Blink_Detection : Type := Detector {
  history_length : Q;
  onset_confidence_threshold : Q;
  offset_confidence_threshold : Q;
  history : list sample;
  recent_blink : option blink_entry
}.

Definition set_history (self : Blink_Detection) (h : list sample) : Blink_Detection :=
  Detector (history_length self) (onset_confidence_threshold self)
    (offset_confidence_threshold self) h (recent_blink self).

Definition set_recent_blink (self : Blink_Detection) (b : option blink_entry)
  : Blink_Detection :=
  Detector (history_length self) (onset_confidence_threshold self)
    (offset_confidence_threshold self) (history self) b.

Definition set_blinks (ev : events) (l : list blink_entry) : events :=
  Events (pupil_positions ev) (Some l).

(** ** The matched filter (lines 79-85 and 172-173, 178) *)

(** "Response of +-0.45 seems sufficient for a confidence of 1." *)
Definition response_scale : Q := 45 # 100.

(** [np.ones(filter_size) / filter_size] followed by
    [blink_filter[filter_size // 2:] *= -1]. *)
Definition make_blink_filter (filter_size : Z) : result (list Q) :=
  ones ← np_ones filter_size;
  let blink_filter := map (fun x => x / inject_Z filter_size) ones in
  Ok (imul_from (filter_size / 2) (-1) blink_filter).

(** [activity @ blink_filter / 0.45] over a window of confidences. *)
Definition matched_filter (activity : list Q) : result Q :=
  blink_filter ← make_blink_filter (Z.of_nat (length activity));
  d ← np_dot activity blink_filter;
  Ok (d / response_scale).

(** ** Streaming detection: [Blink_Detection.recent_events] *)

(** The [while] loop of lines 70-71.  [history[1]] raises [IndexError] on
    a deque shorter than two, which the enclosing [try] swallows: the loop
    then ends with the deque as it is. *)
Fixpoint trim (age_threshold : Q) (h : list sample) : list sample :=
  match h with
  | _ :: ((second :: _) as rest) =>
      if Qltb (timestamp second) age_threshold then trim age_threshold rest else h
  | _ => h
  end.

(** The [try] block of lines 68-73.  On an empty deque [history[-1]]
    raises [IndexError] and nothing is removed. *)
Definition prune (history_length : Q) (h : list sample) : list sample :=
  match py_index h (-1) with
  | Ok newest => trim (timestamp newest - history_length) h
  | Raise _ => h
  end.

(** Lines 63-73: reset the outputs, extend the deque, prune it. *)
Definition window_after_trim (self : Blink_Detection) (ev : events) : list sample :=
  prune (history_length self) (history self ++ default [] (pupil_positions ev)).

(** Lines 75-77: the guard that returns early. *)
Definition insufficient (history_length : Q) (h : list sample) : result bool :=
  let filter_size := length h in
  if (filter_size <? 2)%nat then Ok true
  else
    newest ← py_index h (-1);
    oldest ← py_index h 0;
    Ok (Qltb (timestamp newest - timestamp oldest) history_length).

(** Lines 87-92: [None] is the early [return]. *)
Definition classify (onset_thr offset_thr filter_response : Q) : option blink_type :=
  if Qle_bool (- offset_thr) filter_response && Qle_bool filter_response onset_thr
  then None
  else if Qltb onset_thr filter_response then Some onset
  else Some offset.

(** Lines 75-104: the blink entry of this call, if any. *)
Definition detect (self : Blink_Detection) : result (option blink_entry) :=
  let h := history self in
  short ← insufficient (history_length self) h;
  if short : bool then Ok None
  else
    filter_response ← matched_filter (map confidence h);
    match classify (onset_confidence_threshold self)
            (offset_confidence_threshold self) filter_response with
    | None => Ok None
    | Some blink_type =>
        let confidence := Qmin (Qabs filter_response) 1 in
        middle ← py_index h (Z.of_nat (length h) / 2);
        Ok (Some (BlinkEntry "blink" blink_type confidence h
                    (timestamp middle) true))
    end.

(** [recent_events(self, events)]: the instance and the dict after the
    call. *)
Definition recent_events (self : Blink_Detection) (ev : events)
  : result (Blink_Detection * events) :=
  let ev := set_blinks ev [] in
  let self := set_recent_blink self None in
  let self := set_history self (history self ++ default [] (pupil_positions ev)) in
  let self := set_history self (prune (history_length self) (history self)) in
  found ← detect self;
  match found with
  | None => Ok (self, ev)
  | Some blink_entry =>
      Ok (set_recent_blink self (Some blink_entry),
          set_blinks ev (default [] (blinks ev) ++ [blink_entry]))
  end.

(** ** Batch recalculation: [Offline_Blink_Detection.recalculate] *)

(** The subclass keeps the configuration of its parent and adds the three
    arrays of the response curve. *)
Record Offline_Blink_Detection : Type := Offline {
  detector : Blink_Detection;
  filter_response : list Q;
  response_classification : list Q;
  timestamps : list Q
}.

Definition set_timestamps (self : Offline_Blink_Detection) (t : list Q)
  : Offline_Blink_Detection :=
  Offline (detector self) (filter_response self) (response_classification self) t.

Definition set_filter_response (self : Offline_Blink_Detection) (r : list Q)
  : Offline_Blink_Detection :=
  Offline (detector self) r (response_classification self) (timestamps self).

Definition set_response_classification (self : Offline_Blink_Detection) (c : list Q)
  : Offline_Blink_Detection :=
  Offline (detector self) (filter_response self) c (timestamps self).

(** Lines 170-171: [total_time] and [filter_size]. *)
Definition batch_filter_size (history_length : Q) (all_pp : list sample) : result Z :=
  newest ← py_index all_pp (-1);
  oldest ← py_index all_pp 0;
  let total_time := timestamp newest - timestamp oldest in
  quotient ← py_truediv
    (inject_Z (Z.of_nat (length all_pp)) * history_length) total_time;
  Ok (py_round quotient).

(** [a[mask] = v] for a boolean mask of the shape of [a]. *)
Definition assign_where (mask : list bool) (v : Q) (a : list Q) : list Q :=
  zip_with (fun (m : bool) x => if m then v else x) mask a.

(** Lines 180-185. *)
Definition classify_response (self : Offline_Blink_Detection) : list Q :=
  let onsets :=
    map (fun r => Qltb (onset_confidence_threshold (detector self)) r)
      (filter_response self) in
  let offsets :=
    map (fun r => Qltb r (- onset_confidence_threshold (detector self)))
      (filter_response self) in
  let zeros := repeat 0 (length (filter_response self)) in
  assign_where offsets (-1) (assign_where onsets 1 zeros).

(** [recalculate(self)] over [g_pool.pupil_positions]: the instance after
    the call and how the call ended.  An exception raised at lines 170-173
    leaves the instance untouched; one raised by the convolution finds
    [timestamps] already replaced.  The timer, the timeline refresh and the
    log line are outside the model. *)
Definition recalculate (self : Offline_Blink_Detection) (all_pp : list sample)
  : Offline_Blink_Detection * result unit :=
  let activity := map confidence all_pp in
  match (filter_size ← batch_filter_size (history_length (detector self)) all_pp;
         make_blink_filter filter_size) with
  | Raise e => (self, Raise e)
  | Ok blink_filter =>
      let self := set_timestamps self (map timestamp all_pp) in
      match np_convolve_same activity blink_filter with
      | Raise e => (self, Raise e)
      | Ok conv =>
          let self :=
            set_filter_response self (map (fun x => x / response_scale) conv) in
          let self :=
            set_response_classification self (classify_response self) in
          (self, Ok ())
      end
  end.

(** ** Notions used in the statements *)

(** Timestamps that never decrease along the sequence. *)
Fixpoint non_decreasing (h : list sample) : bool :=
  match h with
  | a :: ((b :: _) as rest) =>
      Qle_bool (timestamp a) (timestamp b) && non_decreasing rest
  | _ => true
  end.

(** How many samples of [h] are older than [thr]. *)
Definition older_count (thr : Q) (h : list sample) : nat :=
  length (List.filter (fun s => Qltb (timestamp s) thr) h).

(** The instance when line 75 is reached. *)
Definition after_trim (self : Blink_Detection) (ev : events) : Blink_Detection :=
  set_history (set_recent_blink self None) (window_after_trim self ev).

(** The window's last timestamp minus its first. *)
Definition span (h : list sample) : Q :=
  match last h, head h with
  | Some newest, Some oldest => timestamp newest - timestamp oldest
  | _, _ => 0
  end.

(** At least two samples that span at least [history_length]. *)
Definition sufficient (history_length : Q) (h : list sample) : bool :=
  (2 <=? length h)%nat && Qle_bool history_length (span h).

(** The class lines 180-185 leave at an index whose response is [r]: the
    offsets are written last. *)
Definition batch_class (onset_thr r : Q) : Q :=
  if Qltb r (- onset_thr) then -1 else if Qltb onset_thr r then 1 else 0.

(** The same instance with another [offset_confidence_threshold]. *)
Definition set_offset_confidence_threshold (self : Offline_Blink_Detection) (off : Q)
  : Offline_Blink_Detection :=
  Offline
    (Detector (history_length (detector self))
       (onset_confidence_threshold (detector self)) off
       (history (detector self)) (recent_blink (detector self)))
    (filter_response self) (response_classification self) (timestamps self).

(** ** The response as the specification words it *)

(** [k[i] = +1/n] for [i < n // 2], [k[i] = -1/n] for [i >= n // 2]. *)
Definition spec_kernel (n i : nat) : Q :=
  if (i <? n / 2)%nat then 1 / inject_Z (Z.of_nat n)
  else - (1 / inject_Z (Z.of_nat n)).

(** [sum_i a[i] * k[i0 + i]]. *)
Fixpoint spec_dot_from (i0 : nat) (a : list Q) (k : nat -> Q) : Q :=
  match a with
  | [] => 0
  | x :: a' => x * k i0 + spec_dot_from (S i0) a' k
  end.

(** [dot(confidence_values, k)]. *)
Definition spec_dot (a : list Q) (k : nat -> Q) : Q := spec_dot_from 0 a k.


(** ** Sample runs *)

(** A detector that has seen two confident samples 0.1 s apart. *)
Definition ex_detector : Blink_Detection :=
  Detector (2 # 10) (1 # 2) (1 # 2) [Sample 0 1; Sample (1 # 10) 1] None.

(** Three samples of low confidence arriving in one call. *)
Definition ex_burst : events :=
  Events (Some [Sample (2 # 10) (1 # 10); Sample (3 # 10) (1 # 10);
                Sample (4 # 10) (1 # 10)]) None.

(** Two samples of low confidence: the confidence drop of a blink onset. *)
Definition ex_drop : events :=
  Events (Some [Sample (2 # 10) (1 # 10); Sample (3 # 10) (1 # 10)]) None.

(** A call that brings no pupil data. *)
Definition ex_no_events : events := Events None None.

Definition ex_old_blink : blink_entry :=
  BlinkEntry "blink" onset 1 [Sample 0 1; Sample (1 # 10) 1] (1 # 10) true.

(** Instance and dict that still hold the entry of an earlier call. *)
Definition ex_detector_after_blink : Blink_Detection :=
  set_recent_blink ex_detector (Some ex_old_blink).

Definition ex_events_after_blink : events := Events None (Some [ex_old_blink]).

(** One second of confident pupil data at 30 Hz: 31 samples. *)
Definition ex_recording : list sample :=
  map (fun i => Sample (inject_Z (Z.of_nat i) / 30) 1) (seq 0 31).

(** A batch detector with the default thresholds and a 0.2 s filter. *)
Definition ex_offline : Offline_Blink_Detection :=
  Offline (Detector (2 # 10) (1 # 2) (1 # 2) [] None) [] [] [].

(** The same detector with a 0.5 s filter. *)
Definition ex_offline_half : Offline_Blink_Detection :=
  Offline (Detector (1 # 2) (1 # 2) (1 # 2) [] None) [] [] [].

(** Two samples one second apart. *)
Definition ex_sparse : list sample := [Sample 0 1; Sample 1 (1 # 2)].

(** ** Further notions used in the statements *)

(** The sum of the elements of an array. *)
Definition sum_of (l : list Q) : Q := fold_right Qplus 0 l.

(** Every confidence lies in [[0, 1]]. *)
Definition unit_interval (l : list Q) : Prop :=
  Forall (fun c => 0 <= c /\ c <= 1) l.

(** ** Display and configuration of the streaming plugin *)

(** A [Blink_Detection] instance together with its [visualize] switch. *)
Record plugin : Type := Plugin {
  core : Blink_Detection;
  visualize : bool
}.

(** [gl_display(self)] (lines 108-114): the alpha of the black overlay
    that is drawn, [None] when nothing is drawn.  A blink entry is a
    non-empty dict, hence true in the test of line 109. *)
Definition gl_display (p : plugin) : option Q :=
  match recent_blink (core p) with
  | Some blink =>
      if visualize p then
        match type_ blink with
        | onset => Some (blink_confidence blink * (1 # 2))
        | offset => None
        end
      else None
  | None => None
  end.

(** The keyword arguments of [__init__], which [get_init_dict] returns. *)
Record init_dict : Type := InitDict {
  arg_history_length : Q;
  arg_visualize : bool;
  arg_onset_confidence_threshold : Q;
  arg_offset_confidence_threshold : Q
}.

(** [Blink_Detection.__init__] (lines 34-43): an empty deque, no recent
    blink. *)
Definition Blink_Detection_init (d : init_dict) : plugin :=
  Plugin
    (Detector (arg_history_length d) (arg_onset_confidence_threshold d)
       (arg_offset_confidence_threshold d) [] None)
    (arg_visualize d).

(** [get_init_dict(self)] (lines 116-119). *)
Definition get_init_dict (p : plugin) : init_dict :=
  InitDict (history_length (core p)) (visualize p)
    (onset_confidence_threshold (core p)) (offset_confidence_threshold (core p)).

(** The host calling [recent_events] once per frame, each time with a
    fresh dict: the instance after the last call. *)
Fixpoint run_calls (self : Blink_Detection) (calls : list events)
  : result Blink_Detection :=
  match calls with
  | [] => Ok self
  | ev :: rest =>
      after ← recent_events self ev;
      run_calls (fst after) rest
  end.

(** What one call does to the deque: extend it, then prune it (lines
    66-73). *)
Definition extend_prune (hl : Q) (h : list sample) (ev : events) : list sample :=
  prune hl (h ++ default [] (pupil_positions ev)).

(** All pupil data the calls bring, in order. *)
Definition samples_of (calls : list events) : list sample :=
  concat (map (fun ev => default [] (pupil_positions ev)) calls).

(** ** Notions used for the convolution *)

(** [l[k]], read as 0 outside the array (zero padding). *)
Definition entry (l : list Q) (k : nat) : Q := default 0 (l !! k).

(** [sum_m a[m] * v[k - m]] over the [m <= k] inside [a]. *)
Fixpoint conv_sum (a v : list Q) (k : nat) : Q :=
  match a with
  | [] => 0
  | x :: a' =>
      x * entry v k + match k with
                      | O => 0
                      | S k' => conv_sum a' v k'
                      end
  end.

(** ** Notifications, settings and timeline of the batch plugin *)

(** The values a notification dict holds. *)
Inductive value : Type :=
| VStr (s : string)
| VNum (q : Q)
| VRange (first last : Z).

(** The dict that the three property setters hand to [notify_all]
    (lines 218, 228, 238). *)
Definition should_recalculate : gmap string value :=
  <["subject" := VStr "blink_detection.should_recalculate"]>
    (<["delay" := VNum (2 # 10)]> ∅).

(** [value == s] for a string literal [s]. *)
Definition is_subject (v : value) (s : string) : bool :=
  match v with
  | VStr t => String.eqb t s
  | _ => false
  end.

(** The test [self._x != val] of a setter: the private field is [None]
    until [__init__] has set it. *)
Definition differs (current : option Q) (val : Q) : bool :=
  match current with
  | Some c => negb (Qeq_bool c val)
  | None => true
  end.

(** What a setter queues with the host. *)
Definition setter_notifications (current : option Q) (val : Q)
  : list (gmap string value) :=
  if differs current val then [should_recalculate] else [].

(** The [history_length] setter (lines 215-219). *)
Definition set_history_length (self : Offline_Blink_Detection) (val : Q)
  : Offline_Blink_Detection * list (gmap string value) :=
  (Offline
     (Detector val (onset_confidence_threshold (detector self))
        (offset_confidence_threshold (detector self))
        (history (detector self)) (recent_blink (detector self)))
     (filter_response self) (response_classification self) (timestamps self),
   setter_notifications (Some (history_length (detector self))) val).

(** The [onset_confidence_threshold] setter (lines 225-229). *)
Definition set_onset_confidence_threshold (self : Offline_Blink_Detection) (val : Q)
  : Offline_Blink_Detection * list (gmap string value) :=
  (Offline
     (Detector (history_length (detector self)) val
        (offset_confidence_threshold (detector self))
        (history (detector self)) (recent_blink (detector self)))
     (filter_response self) (response_classification self) (timestamps self),
   setter_notifications (Some (onset_confidence_threshold (detector self))) val).

(** The [offset_confidence_threshold] setter (lines 235-239). *)
Definition set_offset_threshold (self : Offline_Blink_Detection) (val : Q)
  : Offline_Blink_Detection * list (gmap string value) :=
  (set_offset_confidence_threshold self val,
   setter_notifications (Some (offset_confidence_threshold (detector self))) val).

(** [Offline_Blink_Detection.__init__] (lines 123-133): the three private
    fields start as [None], so each setter called by the parent's
    [__init__] queues its notification; the arrays start empty. *)
Definition Offline_init (d : init_dict)
  : Offline_Blink_Detection * bool * list (gmap string value) :=
  (Offline
     (Detector (arg_history_length d) (arg_onset_confidence_threshold d)
        (arg_offset_confidence_threshold d) [] None) [] [] [],
   arg_visualize d,
   setter_notifications None (arg_history_length d)
     ++ setter_notifications None (arg_onset_confidence_threshold d)
     ++ setter_notifications None (arg_offset_confidence_threshold d)).

(** How a call of [on_notify] ends. *)
Inductive outcome : Type :=
| Returned
| RaisedKeyError (key : string)
| RaisedError (e : exn).

Definition outcome_of (r : result ()) : outcome :=
  match r with
  | Ok _ => Returned
  | Raise e => RaisedError e
  end.

(** [on_notify(self, notification)] (lines 152-159) over
    [g_pool.pupil_positions]; [export] (lines 161-162) does nothing, but
    its two arguments are looked up first. *)
Definition on_notify (self : Offline_Blink_Detection) (all_pp : list sample)
    (notification : gmap string value) : Offline_Blink_Detection * outcome :=
  match notification !! "subject" with
  | None => (self, RaisedKeyError "subject")
  | Some subject =>
      if is_subject subject "blink_detection.should_recalculate" then
        (fst (recalculate self all_pp), outcome_of (snd (recalculate self all_pp)))
      else if is_subject subject "pupil_positions_changed" then
        (fst (recalculate self all_pp), outcome_of (snd (recalculate self all_pp)))
      else if is_subject subject "should_export" then
        match notification !! "range" with
        | None => (self, RaisedKeyError "range")
        | Some _ =>
            match notification !! "export_dir" with
            | None => (self, RaisedKeyError "export_dir")
            | Some _ => (self, Returned)
            end
        end
      else (self, Returned)
  end.

(** What [draw_activation] hands to the drawing calls: the coordinate
    system and the three polylines (colours and line types left out). *)
Record drawing : Type := Drawing {
  coord_system : Q * Q * Q * Q;
  response_points : list (Q * Q);
  class_points : list (Q * Q);
  thresholds : list (Q * Q);
  thickness : Q
}.

(** [draw_activation(self, width, height, scale)] (lines 191-209) over
    [g_pool.timestamps]; [None] is the early [return]. *)
Definition draw_activation (self : Offline_Blink_Detection)
    (g_pool_timestamps : list Q) (scale : Q) : result (option drawing) :=
  let response_points := zip (timestamps self) (filter_response self) in
  let class_points := zip (timestamps self) (response_classification self) in
  if (length response_points =? 0)%nat then Ok None
  else
    t0 ← py_index g_pool_timestamps 0;
    t1 ← py_index g_pool_timestamps (-1);
    let thresholds :=
      [(t0, onset_confidence_threshold (detector self));
       (t1, onset_confidence_threshold (detector self));
       (t0, - offset_confidence_threshold (detector self));
       (t1, - offset_confidence_threshold (detector self))] in
    Ok (Some (Drawing (t0, t1, 1, -1) response_points class_points thresholds
                (1 * scale))).

(** ** Further sample runs *)

(** A second call, with two confident samples: the recovery. *)
Definition ex_recovery : events :=
  Events (Some [Sample (4 # 10) 1; Sample (5 # 10) 1]) None.

(** Two samples 0.1 s apart: a recording shorter than the filter. *)
Definition ex_brief : list sample := [Sample 0 1; Sample (1 # 10) (1 # 2)].

(** A request to export that names neither range nor directory. *)
Definition ex_export_request : gmap string value :=
  <["subject" := VStr "should_export"]> ∅.

(** World timestamps of a one-second recording. *)
Definition ex_world_timestamps : list Q := [0; 1 # 2; 1].

(** * Properties *)

Implicit Types (h w : list sample) (s : sample) (thr : Q).

(** ** Comparisons and indexing *)

Lemma Qltb_lt x y : Qltb x y = true <-> x < y.
Proof.
  unfold Qltb. rewrite negb_true_iff, <- not_true_iff_false, Qle_bool_iff.
  split; [apply Qnot_le_lt | apply Qlt_not_le].
Qed.

Lemma Qltb_ge x y : Qltb x y = false <-> y <= x.
Proof.
  unfold Qltb. rewrite negb_false_iff. apply Qle_bool_iff.
Qed.

Lemma py_index_last {A} (l : list A) : py_index l (-1) =
  match last l with Some x => Ok x | None => Raise IndexError end.
Proof.
  unfold py_index. rewrite last_lookup.
  destruct l as [|a l]; [reflexivity|].
  replace (-1 <? 0)%Z with true by reflexivity.
  destruct (Z.ltb_spec (Z.of_nat (length (a :: l)) + -1) 0) as [H|H];
    [simpl in H; lia|].
  replace (Z.to_nat (Z.of_nat (length (a :: l)) + -1)) with (pred (length (a :: l)))
    by (simpl; lia).
  reflexivity.
Qed.

Lemma py_index_nat {A} (l : list A) (i : nat) : py_index l (Z.of_nat i) =
  match l !! i with Some x => Ok x | None => Raise IndexError end.
Proof.
  unfold py_index.
  destruct (Z.ltb_spec (Z.of_nat i) 0) as [H|H]; [lia|].
  destruct (Z.ltb_spec (Z.of_nat i) 0) as [H'|H']; [lia|].
  now rewrite Nat2Z.id.
Qed.

Lemma py_index_0 {A} (l : list A) : py_index l 0 =
  match head l with Some x => Ok x | None => Raise IndexError end.
Proof. rewrite head_lookup. apply (py_index_nat l 0). Qed.

(** ** The pruning loop *)

Lemma trim_suffix thr h : trim thr h `suffix_of` h.
Proof.
  induction h as [|a [|b t] IH]; simpl; try reflexivity.
  destruct (Qltb (timestamp b) thr); [|reflexivity].
  now apply suffix_cons_r.
Qed.

Lemma trim_last thr h : last (trim thr h) = last h.
Proof.
  induction h as [|a [|b t] IH]; simpl; try reflexivity.
  destruct (Qltb (timestamp b) thr); [|reflexivity].
  exact IH.
Qed.

(** What stops the loop: the deque is shorter than two, or its second
    sample is not older than the threshold. *)
Lemma trim_stops thr h :
  match trim thr h with
  | _ :: second :: _ => thr <= timestamp second
  | _ => True
  end.
Proof.
  induction h as [|a [|b t] IH]; simpl; try exact I.
  destruct (Qltb (timestamp b) thr) eqn:E; [exact IH|].
  now apply Qltb_ge.
Qed.

(** The loop never pops the sample it compares with the threshold unless
    that sample is older than it; the newest sample never is. *)
Lemma trim_keeps_two thr h newest :
  last h = Some newest -> thr <= timestamp newest ->
  (2 <= length h)%nat -> (2 <= length (trim thr h))%nat.
Proof.
  induction h as [|a [|b t] IH]; simpl; intros Hl Hthr Hlen; try lia.
  destruct (Qltb (timestamp b) thr) eqn:E; [|simpl; lia].
  destruct t as [|c t'].
  - simpl in Hl. injection Hl as <-. apply Qltb_lt in E. lra.
  - apply IH; [exact Hl|exact Hthr|simpl; lia].
Qed.

Lemma non_decreasing_head a h :
  non_decreasing (a :: h) = true ->
  Forall (fun s => timestamp a <= timestamp s) h.
Proof.
  revert a. induction h as [|b t IH]; intros a H; [constructor|].
  simpl in H. apply andb_true_iff in H as [Hab Ht].
  apply Qle_bool_iff in Hab. constructor; [exact Hab|].
  eapply Forall_impl; [apply IH, Ht|].
  simpl. intros s Hs. lra.
Qed.

Lemma non_decreasing_suffix h w :
  w `suffix_of` h -> non_decreasing h = true -> non_decreasing w = true.
Proof.
  intros [pre ->]. induction pre as [|a pre IH]; [trivial|].
  intros H. apply IH. revert H. simpl. destruct (pre ++ w); [reflexivity|].
  intros H. now apply andb_true_iff in H as [_ H].
Qed.

Lemma older_count_cons thr s h :
  older_count thr (s :: h) =
  ((if Qltb (timestamp s) thr then 1 else 0) + older_count thr h)%nat.
Proof. unfold older_count. simpl. now destruct (Qltb (timestamp s) thr). Qed.

Lemma older_count_none thr h :
  Forall (fun s => thr <= timestamp s) h -> older_count thr h = 0%nat.
Proof.
  unfold older_count. induction 1 as [|s t Hs _ IH]; [reflexivity|].
  simpl. apply Qltb_ge in Hs. now rewrite Hs.
Qed.

(** After the loop at most the first sample is older than the threshold,
    provided the timestamps do not decrease. *)
Lemma trim_older_count thr h :
  non_decreasing h = true -> (older_count thr (trim thr h) <= 1)%nat.
Proof.
  intros Hs.
  pose proof (non_decreasing_suffix _ _ (trim_suffix thr h) Hs) as Hw.
  pose proof (trim_stops thr h) as Hstop.
  destruct (trim thr h) as [|a [|b t]].
  - cbv. lia.
  - rewrite older_count_cons. destruct (Qltb _ _); cbv; lia.
  - assert (older_count thr (b :: t) = 0%nat) as H0.
    { apply older_count_none. simpl in Hw. apply andb_true_iff in Hw as [_ Hw].
      constructor; [exact Hstop|].
      eapply Forall_impl; [apply non_decreasing_head, Hw|].
      simpl. intros s Hbs. lra. }
    rewrite older_count_cons, H0. destruct (Qltb (timestamp a) thr); lia.
Qed.

Lemma prune_spec hl h :
  prune hl h =
  match last h with
  | Some newest => trim (timestamp newest - hl) h
  | None => h
  end.
Proof. unfold prune. rewrite py_index_last. now destruct (last h). Qed.

Lemma prune_suffix hl h : prune hl h `suffix_of` h.
Proof. rewrite prune_spec. destruct (last h); [apply trim_suffix|reflexivity]. Qed.

Lemma prune_last hl h : last (prune hl h) = last h.
Proof. rewrite prune_spec. destruct (last h) eqn:E; [now rewrite trim_last|exact E]. Qed.

Lemma prune_keeps_two hl h :
  0 <= hl -> (2 <= length h)%nat -> (2 <= length (prune hl h))%nat.
Proof.
  intros Hhl Hlen. rewrite prune_spec. destruct (last h) as [newest|] eqn:E; [|exact Hlen].
  apply (trim_keeps_two _ _ newest E); [lra|exact Hlen].
Qed.

(** The two newest samples survive the pruning. *)
Lemma prune_keeps_newest hl h :
  0 <= hl -> (2 <= length h)%nat ->
  drop (length h - 2) h `suffix_of` prune hl h.
Proof.
  intros Hhl Hlen.
  pose proof (prune_keeps_two hl h Hhl Hlen) as Hw.
  destruct (prune_suffix hl h) as [pre Hpre].
  rewrite Hpre at 1 2. rewrite length_app.
  replace (length pre + length (prune hl h) - 2)%nat
    with (length pre + (length (prune hl h) - 2))%nat by lia.
  rewrite drop_app_add. apply suffix_drop.
Qed.

(** ** The filter kernel *)

Lemma take_repeat {A} (x : A) (k n : nat) :
  (k <= n)%nat -> take k (repeat x n) = repeat x k.
Proof.
  intros H. replace n with (k + (n - k))%nat by lia.
  rewrite repeat_app. rewrite take_app_length'; [reflexivity|now rewrite repeat_length].
Qed.

Lemma drop_repeat {A} (x : A) (k n : nat) :
  (k <= n)%nat -> drop k (repeat x n) = repeat x (n - k).
Proof.
  intros H. replace n with (k + (n - k))%nat at 1 by lia.
  rewrite repeat_app. rewrite drop_app_length'; [reflexivity|now rewrite repeat_length].
Qed.

(** The kernel for a window of [m] samples: [m // 2] weights [1/m], then
    [m - m // 2] weights [1/m * -1]. *)
Lemma make_blink_filter_nat (m : nat) :
  make_blink_filter (Z.of_nat m) =
  Ok (repeat (1 / inject_Z (Z.of_nat m)) (m / 2)
        ++ repeat (1 / inject_Z (Z.of_nat m) * -1) (m - m / 2)).
Proof.
  unfold make_blink_filter, np_ones.
  destruct (Z.ltb_spec (Z.of_nat m) 0) as [H|_]; [lia|].
  cbn [mbind result_bind]. rewrite Nat2Z.id, map_repeat.
  unfold imul_from. rewrite repeat_length.
  assert (0 <= Z.of_nat m / 2 <= Z.of_nat m)%Z as Hhalf.
  { split; [apply Z.div_pos; lia|]. apply Z.div_le_upper_bound; lia. }
  destruct (Z.ltb_spec (Z.of_nat m / 2) 0) as [H|_]; [lia|].
  rewrite Z.min_l by lia.
  rewrite Z2Nat.inj_div, Nat2Z.id by lia.
  change (Z.to_nat 2) with 2%nat.
  assert (m / 2 <= m)%nat as Hle by (apply Nat.Div0.div_le_upper_bound; lia).
  rewrite take_repeat, drop_repeat, map_repeat by exact Hle.
  reflexivity.
Qed.

Lemma make_blink_filter_length (m : nat) :
  exists k, make_blink_filter (Z.of_nat m) = Ok k /\ length k = m.
Proof.
  eexists. split; [apply make_blink_filter_nat|].
  rewrite length_app, !repeat_length.
  assert (m / 2 <= m)%nat by (apply Nat.Div0.div_le_upper_bound; lia). lia.
Qed.

Lemma matched_filter_total (activity : list Q) :
  exists r, matched_filter activity = Ok r.
Proof.
  unfold matched_filter.
  destruct (make_blink_filter_length (length activity)) as (k & -> & Hk).
  cbn [mbind result_bind]. unfold np_dot. rewrite Hk, Nat.eqb_refl.
  cbn [mbind result_bind]. eauto.
Qed.

(** ** The streaming call never raises *)

(** The instance as it stands when line 75 is reached. *)
Lemma after_trim_history self ev :
  history (after_trim self ev) = window_after_trim self ev.
Proof. reflexivity. Qed.

Lemma insufficient_spec hl h :
  insufficient hl h = Ok (negb (sufficient hl h)).
Proof.
  unfold insufficient, sufficient, span.
  destruct (Nat.ltb_spec (length h) 2) as [Hlt|Hge].
  - destruct (Nat.leb_spec 2 (length h)); [lia|reflexivity].
  - destruct (Nat.leb_spec 2 (length h)) as [_|]; [|lia].
    rewrite py_index_last, py_index_0.
    destruct h as [|a h]; [simpl in Hge; lia|].
    destruct (last (a :: h)) as [newest|] eqn:E.
    + reflexivity.
    + apply last_None in E. discriminate.
Qed.

Lemma detect_total self : exists found, detect self = Ok found.
Proof.
  unfold detect. rewrite insufficient_spec. cbn [mbind result_bind].
  destruct (sufficient _ _) eqn:Hs; cbn [negb]; [|eauto].
  destruct (matched_filter_total (map confidence (history self))) as [r ->].
  cbn [mbind result_bind].
  destruct (classify _ _ r); [|eauto].
  rewrite <- (Nat2Z.inj_div _ 2), py_index_nat.
  destruct (lookup_lt_is_Some_2 (history self) (length (history self) / 2)) as [mid ->].
  { unfold sufficient in Hs. apply andb_true_iff in Hs as [Hs _].
    apply Nat.leb_le in Hs. apply Nat.div_lt; lia. }
  cbn [mbind result_bind]. eauto.
Qed.

(** One call, start to end: the entry found on the pruned window, if any,
    is the whole of the call's output. *)
Lemma recent_events_run self ev :
  exists found,
    detect (after_trim self ev) = Ok found /\
    recent_events self ev =
      Ok (set_recent_blink (after_trim self ev) found,
          set_blinks ev (option_list found)).
Proof.
  destruct (detect_total (after_trim self ev)) as [found Hf].
  exists found. split; [exact Hf|].
  unfold recent_events.
  change (detect _) with (detect (after_trim self ev)). rewrite Hf.
  now destruct found.
Qed.

Lemma sufficient_spec hl h :
  sufficient hl h = true <-> (2 <= length h)%nat /\ hl <= span h.
Proof.
  unfold sufficient. now rewrite andb_true_iff, Nat.leb_le, Qle_bool_iff.
Qed.

Lemma detect_insufficient self :
  sufficient (history_length self) (history self) = false ->
  detect self = Ok None.
Proof.
  intros Hs. unfold detect. rewrite insufficient_spec, Hs. reflexivity.
Qed.

Lemma detect_sufficient self :
  sufficient (history_length self) (history self) = true ->
  exists r mid,
    matched_filter (map confidence (history self)) = Ok r /\
    history self !! (length (history self) / 2)%nat = Some mid /\
    detect self =
      Ok (match classify (onset_confidence_threshold self)
                  (offset_confidence_threshold self) r with
          | None => None
          | Some blink_type =>
              Some (BlinkEntry "blink" blink_type (Qmin (Qabs r) 1)
                      (history self) (timestamp mid) true)
          end).
Proof.
  intros Hs.
  destruct (matched_filter_total (map confidence (history self))) as [r Hr].
  destruct (lookup_lt_is_Some_2 (history self) (length (history self) / 2))
    as [mid Hmid].
  { apply sufficient_spec in Hs as [Hs _]. apply Nat.div_lt; lia. }
  exists r, mid. split; [exact Hr|]. split; [exact Hmid|].
  unfold detect. rewrite insufficient_spec, Hs. cbn [negb mbind result_bind].
  rewrite Hr. cbn [mbind result_bind].
  destruct (classify _ _ r); [|reflexivity].
  rewrite <- (Nat2Z.inj_div _ 2), py_index_nat, Hmid. reflexivity.
Qed.

Lemma classify_None on off r :
  classify on off r = None <-> - off <= r /\ r <= on.
Proof.
  unfold classify. rewrite <- !Qle_bool_iff, <- andb_true_iff.
  destruct (_ && _); [tauto|].
  destruct (Qltb on r); split; (discriminate || tauto || intuition discriminate).
Qed.

Lemma classify_Some on off r t :
  classify on off r = Some t ->
  (on < r -> t = onset) /\ (~ on < r -> r < - off /\ t = offset).
Proof.
  unfold classify.
  destruct (Qle_bool (- off) r && Qle_bool r on) eqn:Hband; [discriminate|].
  apply andb_false_iff in Hband.
  rewrite <- !not_true_iff_false, !Qle_bool_iff in Hband.
  destruct (Qltb on r) eqn:Hon; intros [= <-].
  - apply Qltb_lt in Hon. tauto.
  - apply Qltb_ge in Hon. split; [intros H; lra|].
    intros _. split; [|reflexivity].
    destruct Hband as [H|H]; [now apply Qnot_le_lt|contradiction].
Qed.

(** ** Streaming detection *)

(** C4.  After the trimming step of a streaming call with a positive
    [history_length], at most one sample of the window is older than the
    newest timestamp minus [history_length] (for a stream whose timestamps
    never decrease, as the data model has it), and the window is a suffix
    of the extended deque that still ends with its two newest samples: a
    deque of two or more samples is never pruned below two. *)
Theorem trimming_keeps_recent_window self ev :
  0 < history_length self ->
  let before := history self ++ default [] (pupil_positions ev) in
  exists self' ev',
    recent_events self ev = Ok (self', ev') /\
    (non_decreasing before = true ->
     forall newest, last (history self') = Some newest ->
       (older_count (timestamp newest - history_length self) (history self') <= 1)%nat) /\
    ((2 <= length before)%nat ->
     history self' `suffix_of` before /\
     drop (length before - 2) before `suffix_of` history self' /\
     (2 <= length (history self'))%nat).
Proof.
  intros Hhl before.
  destruct (recent_events_run self ev) as (found & _ & Hrun).
  eexists _, _. split; [exact Hrun|].
  assert (history (set_recent_blink (after_trim self ev) found)
          = prune (history_length self) before) as -> by reflexivity.
  split.
  - intros Hsorted newest Hnewest.
    rewrite prune_last in Hnewest. rewrite prune_spec, Hnewest.
    now apply trim_older_count.
  - intros Hlen. split; [apply prune_suffix|].
    split; [apply prune_keeps_newest | apply prune_keeps_two]; (lra || exact Hlen).
Qed.

Lemma trimming_keeps_recent_window_witness :
  exists self' ev',
    recent_events ex_detector ex_burst = Ok (self', ev') /\
    (forall newest, last (history self') = Some newest ->
       (older_count (timestamp newest - history_length ex_detector) (history self') <= 1)%nat) /\
    history self' `suffix_of` history ex_detector ++ default [] (pupil_positions ex_burst) /\
    (2 <= length (history self'))%nat.
Proof.
  destruct (trimming_keeps_recent_window ex_detector ex_burst)
    as (self' & ev' & Hrun & Hold & Hkeep); [reflexivity|].
  exists self', ev'. split; [exact Hrun|].
  split; [apply Hold; reflexivity|].
  destruct Hkeep as (Hsuffix & _ & Hlen); [vm_compute; lia|].
  split; [exact Hsuffix|exact Hlen].
Defined.

(** C5.  If the window after trimming has fewer than two samples, or its
    last timestamp minus its first is less than [history_length], the call
    returns with an empty blink list and no recent blink. *)
Theorem no_event_before_history_spans self ev :
  let w := window_after_trim self ev in
  (length w < 2)%nat \/ span w < history_length self ->
  exists self' ev',
    recent_events self ev = Ok (self', ev') /\
    history self' = w /\
    blinks ev' = Some [] /\
    recent_blink self' = None.
Proof.
  intros w Hshort.
  destruct (recent_events_run self ev) as (found & Hfound & Hrun).
  rewrite detect_insufficient in Hfound.
  - injection Hfound as <-. eexists _, _. split; [exact Hrun|]. now repeat split.
  - apply not_true_iff_false. rewrite sufficient_spec.
    change (history (after_trim self ev)) with w.
    change (history_length (after_trim self ev)) with (history_length self).
    intros [Hlen Hspan]. destruct Hshort as [H|H]; [lia|lra].
Qed.

Lemma no_event_before_history_spans_witness :
  exists self' ev',
    recent_events ex_detector ex_no_events = Ok (self', ev') /\
    history self' = window_after_trim ex_detector ex_no_events /\
    blinks ev' = Some [] /\
    recent_blink self' = None.
Proof.
  apply (no_event_before_history_spans ex_detector ex_no_events).
  right. reflexivity.
Defined.

(** C7.  On a sufficient window the response [r] of the matched filter
    decides the call: inside the band [-offset <= r <= onset] there is no
    event; otherwise there is one, an onset when [r > onset] and else an
    offset (then [r < -offset]), with confidence [min(|r|, 1)], the
    timestamp of the sample at index [len // 2] and the window itself as
    base data. *)
Theorem streaming_classification self ev :
  let w := window_after_trim self ev in
  let on := onset_confidence_threshold self in
  let off := offset_confidence_threshold self in
  (2 <= length w)%nat ->
  history_length self <= span w ->
  exists r mid self' ev',
    matched_filter (map confidence w) = Ok r /\
    w !! (length w / 2)%nat = Some mid /\
    recent_events self ev = Ok (self', ev') /\
    (- off <= r /\ r <= on -> blinks ev' = Some [] /\ recent_blink self' = None) /\
    (~ (- off <= r /\ r <= on) ->
     exists e,
       blinks ev' = Some [e] /\ recent_blink self' = Some e /\
       (on < r -> type_ e = onset) /\
       (~ on < r -> r < - off /\ type_ e = offset) /\
       blink_confidence e = Qmin (Qabs r) 1 /\
       blink_timestamp e = timestamp mid /\
       base_data e = w).
Proof.
  intros w on off Hlen Hspan.
  destruct (recent_events_run self ev) as (found & Hfound & Hrun).
  destruct (detect_sufficient (after_trim self ev)) as (r & mid & Hr & Hmid & Hdet).
  { apply sufficient_spec. split; [exact Hlen|exact Hspan]. }
  rewrite Hdet in Hfound. injection Hfound as <-.
  exists r, mid. eexists _, _.
  split; [exact Hr|]. split; [exact Hmid|]. split; [exact Hrun|].
  subst on off. cbn [after_trim set_history set_recent_blink
    onset_confidence_threshold offset_confidence_threshold].
  destruct (classify _ _ r) as [t|] eqn:Hc.
  - split.
    + intros Hband. apply classify_None in Hband. congruence.
    + intros _. eexists. split; [reflexivity|]. split; [reflexivity|].
      destruct (classify_Some _ _ _ _ Hc) as [Hon Hoff].
      repeat split; solve [reflexivity | apply Hon; assumption | apply Hoff; assumption].
  - split; [intros _; now split|].
    intros Hband. apply classify_None in Hc. contradiction.
Qed.

Lemma streaming_classification_witness :
  exists r mid self' ev',
    matched_filter (map confidence (window_after_trim ex_detector ex_drop)) = Ok r /\
    window_after_trim ex_detector ex_drop
      !! (length (window_after_trim ex_detector ex_drop) / 2)%nat = Some mid /\
    recent_events ex_detector ex_drop = Ok (self', ev') /\
    (- offset_confidence_threshold ex_detector <= r /\
     r <= onset_confidence_threshold ex_detector ->
     blinks ev' = Some [] /\ recent_blink self' = None) /\
    (~ (- offset_confidence_threshold ex_detector <= r /\
        r <= onset_confidence_threshold ex_detector) ->
     exists e,
       blinks ev' = Some [e] /\ recent_blink self' = Some e /\
       (onset_confidence_threshold ex_detector < r -> type_ e = onset) /\
       (~ onset_confidence_threshold ex_detector < r ->
        r < - offset_confidence_threshold ex_detector /\ type_ e = offset) /\
       blink_confidence e = Qmin (Qabs r) 1 /\
       blink_timestamp e = timestamp mid /\
       base_data e = window_after_trim ex_detector ex_drop).
Proof.
  apply (streaming_classification ex_detector ex_drop).
  - vm_compute. lia.
  - vm_compute. discriminate.
Defined.

(** C9.  Whatever the deque held and however many samples the call
    appends, the blink list of the call holds zero or one entry. *)
Theorem at_most_one_event_per_call self ev :
  exists self' ev' l,
    recent_events self ev = Ok (self', ev') /\
    blinks ev' = Some l /\
    (length l <= 1)%nat.
Proof.
  destruct (recent_events_run self ev) as (found & _ & Hrun).
  eexists _, _, _. split; [exact Hrun|]. split; [reflexivity|].
  destruct found; simpl; lia.
Qed.

(** C10.  The call starts from a fresh blink list and a cleared recent
    blink: what the dict and the instance held for them before the call
    has no effect on its result, and a call that classifies no event ends
    with an empty blink list and no recent blink. *)
Theorem outputs_reset_on_each_call self ev :
  (forall old_recent old_blinks,
     recent_events (set_recent_blink self old_recent)
       (Events (pupil_positions ev) old_blinks)
     = recent_events self ev) /\
  (detect (after_trim self ev) = Ok None ->
   exists self' ev',
     recent_events self ev = Ok (self', ev') /\
     blinks ev' = Some [] /\
     recent_blink self' = None).
Proof.
  split; [reflexivity|].
  intros Hnone.
  destruct (recent_events_run self ev) as (found & Hfound & Hrun).
  rewrite Hnone in Hfound. injection Hfound as <-.
  eexists _, _. split; [exact Hrun|]. now split.
Qed.

Lemma outputs_reset_on_each_call_witness :
  exists self' ev',
    recent_events ex_detector_after_blink ex_events_after_blink = Ok (self', ev') /\
    blinks ev' = Some [] /\
    recent_blink self' = None.
Proof.
  apply (outputs_reset_on_each_call ex_detector_after_blink ex_events_after_blink).
  reflexivity.
Defined.

(** ** The matched filter as a difference of means *)

Lemma sum_products_app a1 a2 b1 b2 :
  length a1 = length b1 ->
  sum_products (a1 ++ a2) (b1 ++ b2) == sum_products a1 b1 + sum_products a2 b2.
Proof.
  revert b1. induction a1 as [|x a1 IH]; intros [|y b1] Hlen; try discriminate.
  - simpl. ring.
  - simpl. rewrite IH by (simpl in Hlen; lia). ring.
Qed.

Lemma Qnat_succ (m : nat) :
  inject_Z (Z.of_nat (S m)) == inject_Z (Z.of_nat m) + 1.
Proof. rewrite Nat2Z.inj_succ. unfold Z.succ. now rewrite inject_Z_plus. Qed.

Lemma sum_products_repeat c p (m : nat) :
  sum_products (repeat c m) (repeat p m) == inject_Z (Z.of_nat m) * (c * p).
Proof.
  induction m as [|m IH].
  - simpl. ring.
  - rewrite Qnat_succ. cbn [repeat sum_products]. rewrite IH. ring.
Qed.


Lemma even_halves (n : nat) : Nat.even n = true -> (n - n / 2 = n / 2)%nat.
Proof.
  intros H. apply Nat.even_spec in H as [k ->].
  rewrite (Nat.mul_comm 2 k), Nat.div_mul by lia. lia.
Qed.

Lemma odd_halves (n : nat) : Nat.odd n = true -> (n - n / 2 = S (n / 2))%nat.
Proof.
  intros H. apply Nat.odd_spec in H as [k ->].
  replace (2 * k + 1)%nat with (1 + k * 2)%nat by lia.
  rewrite Nat.div_add by lia. simpl. lia.
Qed.

Lemma matched_filter_unfold (activity : list Q) :
  let n := length activity in
  matched_filter activity =
  Ok (sum_products activity
        (repeat (1 / inject_Z (Z.of_nat n)) (n / 2)
           ++ repeat (1 / inject_Z (Z.of_nat n) * -1) (n - n / 2))
      / response_scale).
Proof.
  intros n. unfold matched_filter. fold n. rewrite make_blink_filter_nat.
  cbn [mbind result_bind]. unfold np_dot.
  rewrite length_app, !repeat_length.
  assert (n / 2 <= n)%nat as Hle by (apply Nat.Div0.div_le_upper_bound; lia).
  replace (n / 2 + (n - n / 2))%nat with n by lia.
  fold n. now rewrite Nat.eqb_refl.
Qed.




Lemma lookup_repeat {A} (x y : A) (n i : nat) :
  repeat x n !! i = Some y -> y = x /\ (i < n)%nat.
Proof.
  revert i. induction n as [|n IH]; intros [|i]; simpl; try discriminate.
  - intros [= <-]. split; [reflexivity|lia].
  - intros H. apply IH in H as [-> H]. split; [reflexivity|lia].
Qed.

(** The kernel the code builds carries the weights of the specification. *)
Lemma blink_filter_weights (n i : nat) x :
  (repeat (1 / inject_Z (Z.of_nat n)) (n / 2)
     ++ repeat (1 / inject_Z (Z.of_nat n) * -1) (n - n / 2)) !! i = Some x ->
  x == spec_kernel n i.
Proof.
  unfold spec_kernel. intros H. apply lookup_app_Some in H as [H|[Hge H]].
  - apply lookup_repeat in H as [-> Hlt].
    destruct (Nat.ltb_spec i (n / 2)); [reflexivity|lia].
  - rewrite repeat_length in Hge, H. apply lookup_repeat in H as [-> _].
    destruct (Nat.ltb_spec i (n / 2)); [lia|ring].
Qed.

Lemma sum_products_pointwise (a k : list Q) (f : nat -> Q) (i0 : nat) :
  length k = length a ->
  (forall j x, k !! j = Some x -> x == f (i0 + j)%nat) ->
  sum_products a k == spec_dot_from i0 a f.
Proof.
  revert k i0. induction a as [|y a IH]; intros [|x k] i0 Hlen Hk;
    try discriminate; [reflexivity|].
  cbn [sum_products spec_dot_from].
  rewrite (IH k (S i0)).
  - rewrite (Hk 0%nat x eq_refl), Nat.add_0_r. reflexivity.
  - simpl in Hlen. lia.
  - intros j z Hj. rewrite (Hk (S j) z Hj). now rewrite Nat.add_succ_r.
Qed.

(** C6.  For a window of [n >= 2] confidences the response is the dot
    product with the kernel [k[i] = +1/n] for [i < n // 2] and [-1/n] for
    [i >= n // 2], divided by 0.45; the kernel the code builds has these
    weights, and for odd [n] its middle element is [-1/n]. *)
Theorem matched_filter_is_halves_difference (activity : list Q) :
  let n := length activity in
  (2 <= n)%nat ->
  exists r k,
    matched_filter activity = Ok r /\
    r == spec_dot activity (spec_kernel n) / (45 # 100) /\
    make_blink_filter (Z.of_nat n) = Ok k /\
    length k = n /\
    (forall i x, k !! i = Some x ->
       x == (if (i <? n / 2)%nat then 1 / inject_Z (Z.of_nat n)
             else - (1 / inject_Z (Z.of_nat n)))) /\
    (Nat.odd n = true ->
     exists x, k !! (n / 2)%nat = Some x /\ x == - (1 / inject_Z (Z.of_nat n))).
Proof.
  intros n Hn.
  assert (n / 2 < n)%nat as Hhalf by (apply Nat.div_lt; lia).
  eexists _, _. split; [apply matched_filter_unfold|].
  fold n. split; [|split; [apply make_blink_filter_nat|]].
  - unfold spec_dot. apply Qdiv_comp; [|reflexivity].
    apply sum_products_pointwise.
    + rewrite length_app, !repeat_length. fold n. lia.
    + intros j x. apply blink_filter_weights.
  - split; [rewrite length_app, !repeat_length; lia|].
    split; [intros i x; apply blink_filter_weights|].
    intros _.
    destruct (lookup_lt_is_Some_2
      (repeat (1 / inject_Z (Z.of_nat n)) (n / 2)
         ++ repeat (1 / inject_Z (Z.of_nat n) * -1) (n - n / 2)) (n / 2))
      as [x Hx].
    { rewrite length_app, !repeat_length. lia. }
    exists x. split; [exact Hx|].
    rewrite (blink_filter_weights _ _ _ Hx). unfold spec_kernel.
    now rewrite Nat.ltb_irrefl.
Qed.

Lemma matched_filter_is_halves_difference_witness :
  exists r k,
    matched_filter [1; 1; 1 # 10] = Ok r /\
    r == spec_dot [1; 1; 1 # 10] (spec_kernel 3) / (45 # 100) /\
    make_blink_filter 3 = Ok k /\
    length k = 3%nat /\
    (forall i x, k !! i = Some x ->
       x == (if (i <? 1)%nat then 1 / 3 else - (1 / 3))) /\
    (Nat.odd 3 = true -> exists x, k !! 1%nat = Some x /\ x == - (1 / 3)).
Proof.
  apply (matched_filter_is_halves_difference [1; 1; 1 # 10]). simpl. lia.
Defined.

(** ** Batch recalculation *)


Lemma batch_filter_size_spec hl all_pp :
  batch_filter_size hl all_pp =
  match all_pp with
  | [] => Raise IndexError
  | _ :: _ =>
      if Qeq_bool (span all_pp) 0 then Raise ZeroDivisionError
      else Ok (py_round (inject_Z (Z.of_nat (length all_pp)) * hl / span all_pp))
  end.
Proof.
  unfold batch_filter_size, span. rewrite py_index_last, py_index_0.
  destruct all_pp as [|a t]; [reflexivity|].
  destruct (last (a :: t)) as [newest|] eqn:E.
  - cbn [mbind result_bind head]. unfold py_truediv.
    now destruct (Qeq_bool _ 0).
  - apply last_None in E. discriminate.
Qed.




Lemma assign_where_classes on (rs : list Q) :
  assign_where (map (fun r => Qltb r (- on)) rs) (-1)
    (assign_where (map (fun r => Qltb on r) rs) 1 (repeat 0 (length rs)))
  = map (batch_class on) rs.
Proof.
  unfold assign_where, batch_class.
  induction rs as [|r rs IH]; [reflexivity|].
  cbn [map length repeat zip_with]. rewrite IH.
  now destruct (Qltb r (- on)), (Qltb on r).
Qed.

Lemma classify_response_map self :
  classify_response self =
  map (batch_class (onset_confidence_threshold (detector self)))
    (filter_response self).
Proof. apply assign_where_classes. Qed.

Lemma lookup_map {A B} (f : A -> B) (l : list A) (i : nat) :
  map f l !! i = f <$> l !! i.
Proof. revert i. induction l as [|a l IH]; intros [|i]; simpl; auto. Qed.

(** What the instance holds after a call that ran to its end. *)
Lemma recalculate_classification self all_pp self' :
  recalculate self all_pp = (self', Ok ()) ->
  detector self' = detector self /\
  timestamps self' = map timestamp all_pp /\
  response_classification self' =
    map (batch_class (onset_confidence_threshold (detector self)))
      (filter_response self').
Proof.
  unfold recalculate.
  destruct (_ ≫= _) as [blink_filter|e]; [|intros [= _ H]; discriminate].
  destruct (np_convolve_same _ _) as [conv|e]; [|intros [= _ H]; discriminate].
  intros [= Hs]. subst self'. split; [reflexivity|]. split; [reflexivity|].
  cbn [response_classification set_response_classification].
  rewrite classify_response_map. reflexivity.
Qed.


Lemma recalculate_ignores_offset_threshold self all_pp off :
  recalculate (set_offset_confidence_threshold self off) all_pp =
  (set_offset_confidence_threshold (fst (recalculate self all_pp)) off,
   snd (recalculate self all_pp)).
Proof.
  unfold recalculate.
  change (history_length (detector (set_offset_confidence_threshold self off)))
    with (history_length (detector self)).
  destruct (_ ≫= _) as [blink_filter|e]; [|reflexivity].
  destruct (np_convolve_same _ _) as [conv|e]; reflexivity.
Qed.



Lemma make_blink_filter_negative fs :
  (fs < 0)%Z -> make_blink_filter fs = Raise ValueError.
Proof.
  intros H. unfold make_blink_filter, np_ones.
  destruct (Z.ltb_spec fs 0); [reflexivity|lia].
Qed.

Lemma make_blink_filter_nonnegative fs :
  (0 <= fs)%Z ->
  exists k, make_blink_filter fs = Ok k /\ length k = Z.to_nat fs.
Proof.
  intros H. destruct (make_blink_filter_length (Z.to_nat fs)) as (k & Hk & Hlen).
  rewrite (Z2Nat.id fs H) in Hk. eauto.
Qed.

Lemma convolve_full_single (a : list Q) (k : Q) :
  convolve_full a [k] = map (fun x => x * k + 0) a.
Proof.
  induction a as [|x a IH]; [reflexivity|].
  cbn [convolve_full map add_padded]. now rewrite IH.
Qed.

Lemma np_convolve_same_nonempty (a v : list Q) :
  a <> [] -> v <> [] -> exists c, np_convolve_same a v = Ok c.
Proof.
  intros Ha Hv. unfold np_convolve_same.
  destruct (length a <? length v)%nat; destruct a, v; try contradiction; eauto.
Qed.

Lemma np_convolve_same_empty_kernel (a : list Q) :
  np_convolve_same a [] = Raise ValueError.
Proof. now destruct a. Qed.

Lemma np_convolve_same_single (a : list Q) (k : Q) :
  a <> [] -> np_convolve_same a [k] = Ok (map (fun x => x * k + 0) a).
Proof.
  intros Ha. destruct a as [|x a]; [contradiction|].
  unfold np_convolve_same. cbn [length Nat.ltb Nat.leb].
  change ((1 - 1) / 2)%nat with 0%nat. cbn [drop].
  rewrite convolve_full_single. f_equal.
  apply take_ge. rewrite length_map. simpl. lia.
Qed.

(** How a recalculation ends, by the filter size it derives. *)
Lemma recalculate_outcome self all_pp fs :
  batch_filter_size (history_length (detector self)) all_pp = Ok fs ->
  ((fs <= 0)%Z -> snd (recalculate self all_pp) = Raise ValueError) /\
  ((1 <= fs)%Z -> snd (recalculate self all_pp) = Ok ()) /\
  (fs = 1%Z ->
   Forall2 Qeq (filter_response (fst (recalculate self all_pp)))
     (map (fun c => - c / response_scale) (map confidence all_pp))).
Proof.
  intros Hfs.
  assert (map confidence all_pp <> []) as Hne.
  { rewrite batch_filter_size_spec in Hfs. now destruct all_pp. }
  unfold recalculate. rewrite Hfs. cbn [mbind result_bind].
  split; [|split].
  - intros Hle. destruct (Z.eq_dec fs 0%Z) as [->|Hnz].
    + change (make_blink_filter 0) with (@Ok (list Q) []). cbv beta iota zeta.
      now rewrite np_convolve_same_empty_kernel.
    + now rewrite make_blink_filter_negative by lia.
  - intros Hge.
    destruct (make_blink_filter_nonnegative fs) as (k & -> & Hk); [lia|].
    destruct (np_convolve_same_nonempty (map confidence all_pp) k) as [c ->];
      [exact Hne| |reflexivity].
    intros ->. simpl in Hk. lia.
  - intros ->. change (make_blink_filter 1) with (@Ok (list Q) [-1]).
    cbv beta iota zeta. rewrite np_convolve_same_single by exact Hne.
    cbn [fst filter_response set_response_classification set_filter_response].
    clear Hne Hfs.
    induction (map confidence all_pp) as [|c l IH]; cbn [map]; constructor;
      [|exact IH].
    unfold Qdiv. ring.
Qed.

(** C1 (amended).  [recalculate] has no error type of its own.  On an
    empty sequence it ends with [IndexError]; on a single sample, and on
    any sequence whose last and first timestamps are equal, with
    [ZeroDivisionError]; otherwise, when the derived filter size is 0 or
    negative, with the [ValueError] of numpy; and when the filter size is
    1 it does not fail: the response is [-confidence / 0.45] at every
    sample.  The instance is left as it was by the first two. *)
Theorem recalculate_failure_modes self all_pp :
  let hl := history_length (detector self) in
  let filter_size :=
    py_round (inject_Z (Z.of_nat (length all_pp)) * hl / span all_pp) in
  (all_pp = [] -> recalculate self all_pp = (self, Raise IndexError)) /\
  (length all_pp = 1%nat ->
   recalculate self all_pp = (self, Raise ZeroDivisionError)) /\
  (all_pp <> [] -> span all_pp == 0 ->
   recalculate self all_pp = (self, Raise ZeroDivisionError)) /\
  (all_pp <> [] -> ~ span all_pp == 0 ->
   ((filter_size <= 0)%Z -> snd (recalculate self all_pp) = Raise ValueError) /\
   (filter_size = 1%Z ->
    snd (recalculate self all_pp) = Ok () /\
    Forall2 Qeq (filter_response (fst (recalculate self all_pp)))
      (map (fun c => - c / response_scale) (map confidence all_pp)))).
Proof.
  intros hl filter_size.
  assert (all_pp <> [] -> span all_pp == 0 ->
          recalculate self all_pp = (self, Raise ZeroDivisionError)) as Hzero.
  { intros Hne Hspan. unfold recalculate. rewrite batch_filter_size_spec.
    destruct all_pp as [|a t]; [contradiction|].
    apply Qeq_bool_iff in Hspan. now rewrite Hspan. }
  split; [now intros ->|]. split; [|split; [exact Hzero|]].
  - intros Hlen. apply Hzero; [now destruct all_pp|].
    destruct all_pp as [|a [|b t]]; try discriminate. unfold span. simpl. ring.
  - intros Hne Hspan.
    assert (batch_filter_size hl all_pp = Ok filter_size) as Hfs.
    { rewrite batch_filter_size_spec. destruct all_pp as [|a t]; [contradiction|].
      destruct (Qeq_bool (span (a :: t)) 0) eqn:E; [|reflexivity].
      apply Qeq_bool_iff in E. contradiction. }
    destruct (recalculate_outcome self all_pp filter_size Hfs) as (Hle & Hge & H1).
    split; [exact Hle|]. intros Hone. split; [apply Hge; lia|now apply H1].
Qed.

Lemma recalculate_failure_modes_witness :
  snd (recalculate ex_offline_half ex_sparse) = Ok () /\
  Forall2 Qeq (filter_response (fst (recalculate ex_offline_half ex_sparse)))
    (map (fun c => - c / response_scale) (map confidence ex_sparse)).
Proof.
  apply (recalculate_failure_modes ex_offline_half ex_sparse).
  - discriminate.
  - vm_compute. discriminate.
  - vm_compute. reflexivity.
Defined.

(** C1 as stated fails: an empty sequence ends in the unguarded
    [IndexError], a single sample in [ZeroDivisionError], a filter size of
    0 in numpy's [ValueError], and a filter size of 1 in no failure at
    all. *)
Lemma recalculate_explicit_errors_counterexample :
  snd (recalculate ex_offline []) = Raise IndexError /\
  snd (recalculate ex_offline [Sample 0 1]) = Raise ZeroDivisionError /\
  batch_filter_size (history_length (detector ex_offline)) ex_sparse = Ok 0%Z /\
  snd (recalculate ex_offline ex_sparse) = Raise ValueError /\
  batch_filter_size (history_length (detector ex_offline_half)) ex_sparse = Ok 1%Z /\
  snd (recalculate ex_offline_half ex_sparse) = Ok ().
Proof. repeat split; vm_compute; reflexivity. Qed.

(** ** Sample evaluations *)

(** The confidence drop of [ex_drop] is reported as an onset of confidence
    1, stamped with the sample in the middle of the window. *)
Example recent_events_reports_onset :
  exists self' e,
    recent_events ex_detector ex_drop
      = Ok (self', Events (pupil_positions ex_drop) (Some [e])) /\
    recent_blink self' = Some e /\
    type_ e = onset /\
    blink_confidence e == 1 /\
    blink_timestamp e = 2 # 10 /\
    length (base_data e) = 4%nat.
Proof. eexists _, _. repeat split. Qed.

(** The burst of [ex_burst] makes the loop pop one sample; the response
    0.5 of what is left sits on the edge of the band: no event. *)
Example recent_events_trims_burst :
  exists self',
    recent_events ex_detector ex_burst
      = Ok (self', Events (pupil_positions ex_burst) (Some [])) /\
    map timestamp (history self') = [1 # 10; 2 # 10; 3 # 10; 4 # 10] /\
    exists r, matched_filter (map confidence (history self')) = Ok r /\ r == 1 # 2.
Proof.
  eexists. split; [vm_compute; reflexivity|]. split; [reflexivity|].
  eexists. split; [vm_compute; reflexivity|]. reflexivity.
Qed.

(** Outside its range the onset threshold makes the two masks overlap, and
    the offsets, written last, win: a response above a negative threshold
    is classed -1. *)
Remark batch_class_negative_threshold :
  - (1) < 0 /\ 0 < - - (1) /\ batch_class (- (1)) 0 = -1.
Proof. repeat split. Qed.

(** The convolution keeps the length of the longer operand: a filter
    longer than the recording gives a response longer than [timestamps]. *)
Example convolve_same_lengths :
  np_convolve_same [1; 2; 3] [0; 1; 1 # 2] = Ok [1; 5 # 2; 8 # 2] /\
  np_convolve_same [1; 1] [1; 2; 3] = Ok [1; 3; 5].
Proof. split; reflexivity. Qed.

(** * Further properties of the plugin *)

(** ** The response as a difference of half sums *)

Lemma sum_products_const (a : list Q) (p : Q) :
  sum_products a (repeat p (length a)) == p * sum_of a.
Proof.
  induction a as [|x a IH]; [simpl; ring|].
  cbn [length repeat sum_products sum_of fold_right]. rewrite IH.
  unfold sum_of. ring.
Qed.

Lemma half_le (n : nat) : (n / 2 <= n)%nat.
Proof. apply Nat.Div0.div_le_upper_bound; lia. Qed.

(** The dot product with the kernel, in closed form. *)
Lemma raw_response_half_sums (activity : list Q) :
  let n := length activity in
  sum_products activity
    (repeat (1 / inject_Z (Z.of_nat n)) (n / 2)
       ++ repeat (1 / inject_Z (Z.of_nat n) * -1) (n - n / 2))
  == (sum_of (take (n / 2) activity) - sum_of (drop (n / 2) activity))
     * (1 / inject_Z (Z.of_nat n)).
Proof.
  intros n. pose proof (half_le n) as Hle.
  rewrite <- (take_drop (n / 2) activity) at 1.
  rewrite sum_products_app by (rewrite length_take, repeat_length; fold n; lia).
  replace (n / 2)%nat with (length (take (n / 2) activity)) at 2
    by (rewrite length_take; fold n; lia).
  replace (n - n / 2)%nat with (length (drop (n / 2) activity))
    by (rewrite length_drop; reflexivity).
  rewrite !sum_products_const. ring.
Qed.

Lemma Qnat_pos (n : nat) : (1 <= n)%nat -> 0 < inject_Z (Z.of_nat n).
Proof. intros H. change 0 with (inject_Z 0). rewrite <- Zlt_Qlt. lia. Qed.

Lemma Qnat_inv_pos (n : nat) : (1 <= n)%nat -> 0 < 1 / inject_Z (Z.of_nat n).
Proof.
  intros H. apply Qlt_shift_div_l; [now apply Qnat_pos|]. rewrite Qmult_0_l. reflexivity.
Qed.

Lemma Qnat_inv_mult (n : nat) :
  (1 <= n)%nat -> inject_Z (Z.of_nat n) * (1 / inject_Z (Z.of_nat n)) == 1.
Proof. intros H. field. pose proof (Qnat_pos n H). lra. Qed.




Lemma sum_of_bounds (l : list Q) :
  unit_interval l -> 0 <= sum_of l /\ sum_of l <= inject_Z (Z.of_nat (length l)).
Proof.
  induction 1 as [|c l [Hlo Hhi] _ [IHlo IHhi]]; [split; vm_compute; discriminate|].
  rewrite length_cons, Qnat_succ. cbn [sum_of fold_right].
  fold (sum_of l). split; lra.
Qed.

Lemma Qnat_le (a b : nat) : (a <= b)%nat -> inject_Z (Z.of_nat a) <= inject_Z (Z.of_nat b).
Proof. intros H. rewrite <- Zle_Qle. lia. Qed.

Lemma Qnat_halves (n : nat) :
  inject_Z (Z.of_nat (n / 2)) + inject_Z (Z.of_nat (n - n / 2)) == inject_Z (Z.of_nat n).
Proof.
  rewrite <- inject_Z_plus, <- Nat2Z.inj_add.
  pose proof (half_le n). now replace (n / 2 + (n - n / 2))%nat with n by lia.
Qed.

(** X2.  For confidences in [[0, 1]] the response before scaling is at
    most 1/2 and at least [-(n - n // 2) / n]: at least -1/2 for an even
    window, while an odd window reaches below -1/2 (zeros first, ones
    after), past the "theoretical response maximum" of the comment at
    lines 83-84. *)
Theorem raw_response_range (activity : list Q) :
  let n := length activity in
  unit_interval activity ->
  (1 <= n)%nat ->
  exists r,
    matched_filter activity = Ok r /\
    r * response_scale <= 1 # 2 /\
    - (inject_Z (Z.of_nat (n - n / 2)) / inject_Z (Z.of_nat n)) <= r * response_scale /\
    (Nat.even n = true -> - (1 # 2) <= r * response_scale) /\
    (Nat.odd n = true ->
     exists r',
       matched_filter (repeat 0 (n / 2) ++ repeat 1 (n - n / 2)) = Ok r' /\
       r' * response_scale
         == - (inject_Z (Z.of_nat (n - n / 2)) / inject_Z (Z.of_nat n)) /\
       r' * response_scale < - (1 # 2)).
Proof.
  intros n Hunit Hn. pose proof (half_le n) as Hle.
  pose proof (raw_response_half_sums activity) as Hdot. cbv zeta in Hdot. fold n in Hdot.
  destruct (sum_of_bounds (take (n / 2) activity)) as [Hlo1 Hhi1];
    [now apply Forall_take|].
  destruct (sum_of_bounds (drop (n / 2) activity)) as [Hlo2 Hhi2];
    [now apply Forall_drop|].
  rewrite length_take in Hhi1. rewrite length_drop in Hhi2. fold n in Hhi1, Hhi2.
  rewrite Nat.min_l in Hhi1 by exact Hle.
  pose proof (Qnat_inv_pos n Hn) as Hw.
  pose proof (Qnat_inv_mult n Hn) as Hnw.
  pose proof (Qnat_halves n) as Hsplit.
  assert (inject_Z (Z.of_nat (n / 2)) <= inject_Z (Z.of_nat (n - n / 2))) as Hhalf.
  { apply Qnat_le. pose proof (Nat.div_mod_eq n 2).
    pose proof (Nat.mod_upper_bound n 2). lia. }
  set (S1 := sum_of (take (n / 2) activity)) in *.
  set (S2 := sum_of (drop (n / 2) activity)) in *.
  set (N := inject_Z (Z.of_nat n)) in *.
  set (K1 := inject_Z (Z.of_nat (n / 2))) in *.
  set (K2 := inject_Z (Z.of_nat (n - n / 2))) in *.
  set (w := 1 / N) in *.
  eexists. split; [apply matched_filter_unfold|]. fold n N w.
  assert (forall d, d / response_scale * response_scale == d) as Hscale
    by (intros d; unfold response_scale; field).
  rewrite Hscale, Hdot.
  assert (K2 / N == K2 * w) as HK2 by (unfold w, Qdiv; ring).
  split; [nra|]. split; [rewrite HK2; nra|]. split.
  - intros Heven. apply even_halves in Heven. fold n in Heven.
    assert (K2 == K1) as HK by (unfold K1, K2; now rewrite Heven). nra.
  - intros Hodd. apply odd_halves in Hodd. fold n in Hodd.
    assert (K2 == K1 + 1) as HK by (unfold K1, K2; rewrite Hodd; apply Qnat_succ).
    eexists. split; [apply matched_filter_unfold|].
    assert (length (repeat 0 (n / 2) ++ repeat 1 (n - n / 2)) = n) as ->
      by (rewrite length_app, !repeat_length; lia).
    fold N w. rewrite Hscale.
    assert (sum_products (repeat 0 (n / 2) ++ repeat 1 (n - n / 2))
              (repeat w (n / 2) ++ repeat (w * -1) (n - n / 2)) == - (K2 * w)) as Hext.
    { rewrite sum_products_app by now rewrite !repeat_length.
      rewrite !sum_products_repeat. fold K1 K2. ring. }
    rewrite Hext, HK2. split; [reflexivity|]. nra.
Qed.

(** ** Streaming: what an emitted entry looks like *)

Lemma detect_Some self e :
  detect self = Ok (Some e) ->
  exists r mid t,
    matched_filter (map confidence (history self)) = Ok r /\
    history self !! (length (history self) / 2)%nat = Some mid /\
    classify (onset_confidence_threshold self) (offset_confidence_threshold self) r
      = Some t /\
    (2 <= length (history self))%nat /\
    history_length self <= span (history self) /\
    e = BlinkEntry "blink" t (Qmin (Qabs r) 1) (history self) (timestamp mid) true.
Proof.
  intros He.
  destruct (sufficient (history_length self) (history self)) eqn:Hs.
  - destruct (detect_sufficient self Hs) as (r & mid & Hr & Hmid & Hdet).
    apply sufficient_spec in Hs as [Hlen Hspan].
    rewrite Hdet in He. exists r, mid.
    destruct (classify _ _ r) as [t|]; [|discriminate].
    exists t. injection He as <-. now repeat split.
  - rewrite (detect_insufficient self Hs) in He. discriminate.
Qed.

(** X3.  Every entry a streaming call reports has a confidence in
    [[0, 1]], topic "blink", the record flag set, the pruned window as
    base data, of two samples or more that span at least
    [history_length], and the timestamp of one of the samples of that
    window; it is also the instance's recent blink. *)
Theorem emitted_entry_shape self ev :
  exists self' ev' l,
    recent_events self ev = Ok (self', ev') /\
    blinks ev' = Some l /\
    recent_blink self' = head l /\
    forall e, e ∈ l ->
      0 <= blink_confidence e /\ blink_confidence e <= 1 /\
      topic e = "blink" /\ record e = true /\
      base_data e = history self' /\
      (2 <= length (base_data e))%nat /\
      history_length self <= span (base_data e) /\
      blink_timestamp e ∈ map timestamp (history self').
Proof.
  destruct (recent_events_run self ev) as (found & Hfound & Hrun).
  eexists _, _, _. split; [exact Hrun|]. split; [reflexivity|].
  split; [now destruct found|].
  intros e He. destruct found as [e'|]; [|inversion He].
  apply list_elem_of_singleton in He as ->.
  destruct (detect_Some _ _ Hfound)
    as (r & mid & t & _ & Hmid & _ & Hlen & Hspan & ->).
  cbn [blink_confidence topic record base_data blink_timestamp].
  split; [apply Q.min_glb; [apply Qabs_nonneg|discriminate]|].
  split; [apply Q.le_min_r|]. repeat split.
  - exact Hlen.
  - exact Hspan.
  - apply list_elem_of_In, in_map, list_elem_of_In.
    eapply list_elem_of_lookup_2. exact Hmid.
Qed.

(** X4.  After a streaming call the overlay of [gl_display] is drawn
    exactly when [visualize] is on and the call reported an onset; its
    alpha is half the confidence of that onset, between 0 and 1/2.  After
    a call that reported an offset, or nothing, nothing is drawn. *)
Theorem overlay_follows_onset self ev (vis : bool) :
  exists self' ev' l,
    recent_events self ev = Ok (self', ev') /\
    blinks ev' = Some l /\
    (forall alpha, gl_display (Plugin self' vis) = Some alpha ->
       vis = true /\
       0 <= alpha /\ alpha <= 1 # 2 /\
       exists e, l = [e] /\ type_ e = onset /\ alpha = blink_confidence e * (1 # 2)) /\
    (gl_display (Plugin self' vis) = None ->
       vis = false \/ l = [] \/ exists e, l = [e] /\ type_ e = offset).
Proof.
  destruct (recent_events_run self ev) as (found & Hfound & Hrun).
  eexists _, _, _. split; [exact Hrun|]. split; [reflexivity|].
  unfold gl_display. cbn [core visualize recent_blink set_recent_blink].
  destruct found as [e|]; [|split; [discriminate|intros _; right; now left]].
  destruct (detect_Some _ _ Hfound) as (r & mid & t & _ & _ & _ & _ & _ & ->).
  cbn [type_ blink_confidence option_list].
  destruct vis; [|split; [discriminate|intros _; now left]].
  destruct t.
  - split; [|discriminate]. intros alpha [= <-]. split; [reflexivity|].
    assert (0 <= Qmin (Qabs r) 1)
      by (apply Q.min_glb; [apply Qabs_nonneg|discriminate]).
    pose proof (Q.le_min_r (Qabs r) 1).
    split; [lra|]. split; [lra|]. eexists. split; [reflexivity|]. now split.
  - split; [discriminate|]. intros _. right. right. eexists. now split.
Qed.

(** ** Streaming: a stream cut into calls *)

Lemma trim_cons_cons thr (a b : sample) (t : list sample) :
  trim thr (a :: b :: t) =
  if Qltb (timestamp b) thr then trim thr (b :: t) else a :: b :: t.
Proof. reflexivity. Qed.

Lemma trim_trim_app thr l1 l2 :
  trim thr (trim thr l1 ++ l2) = trim thr (l1 ++ l2).
Proof.
  induction l1 as [|a [|b t] IH]; try reflexivity.
  change ((a :: b :: t) ++ l2) with (a :: b :: (t ++ l2)).
  rewrite !trim_cons_cons. destruct (Qltb (timestamp b) thr) eqn:E.
  - exact IH.
  - change ((a :: b :: t) ++ l2) with (a :: b :: (t ++ l2)).
    now rewrite trim_cons_cons, E.
Qed.

(** A later threshold undoes nothing and repeats every pop of an earlier
    one. *)
Lemma trim_trim_le thr1 thr2 l :
  thr1 <= thr2 -> trim thr2 (trim thr1 l) = trim thr2 l.
Proof.
  intros Hle. induction l as [|a [|b t] IH]; try reflexivity.
  rewrite (trim_cons_cons thr1). destruct (Qltb (timestamp b) thr1) eqn:E1.
  - apply Qltb_lt in E1. rewrite (trim_cons_cons thr2 a).
    assert (Qltb (timestamp b) thr2 = true) as -> by (apply Qltb_lt; lra).
    exact IH.
  - reflexivity.
Qed.

Lemma last_app_nonempty {A} (x y : list A) a :
  last x = Some a -> exists b, last (x ++ y) = Some b.
Proof.
  intros H. destruct (last (x ++ y)) as [b|] eqn:E; [eauto|].
  apply last_None, app_eq_nil in E as [-> _]. discriminate.
Qed.

(** Pruning after each of two batches is pruning once after both, when the
    newest timestamp does not go backwards. *)
Lemma prune_prune_app hl x y :
  (forall a b, last x = Some a -> last (x ++ y) = Some b ->
     timestamp a <= timestamp b) ->
  prune hl (prune hl x ++ y) = prune hl (x ++ y).
Proof.
  intros Hmono. rewrite (prune_spec hl x).
  destruct (last x) as [a|] eqn:Ea; [|reflexivity].
  rewrite !prune_spec.
  assert (last (trim (timestamp a - hl) x ++ y) = last (x ++ y)) as Hlast.
  { rewrite !last_app, trim_last. reflexivity. }
  rewrite Hlast.
  destruct (last_app_nonempty x y a Ea) as [b Eb]. rewrite Eb.
  rewrite <- (trim_trim_app _ (trim _ x)), trim_trim_le, trim_trim_app;
    [reflexivity|].
  specialize (Hmono a b eq_refl Eb). lra.
Qed.

Lemma non_decreasing_last_le x y a b :
  non_decreasing (x ++ y) = true ->
  last x = Some a -> last (x ++ y) = Some b ->
  timestamp a <= timestamp b.
Proof.
  induction x as [|c [|d x'] IH]; intros Hs Ha Hb; [discriminate| |].
  - injection Ha as ->. destruct y as [|e y'].
    + injection Hb as ->. lra.
    + apply non_decreasing_head in Hs.
      assert (b ∈ e :: y') as Hin.
      { change (last (a :: e :: y') = Some b) in Hb. rewrite last_cons_cons in Hb.
        now apply last_Some_elem_of. }
      rewrite Forall_forall in Hs. now apply Hs.
  - apply IH; [|exact Ha|exact Hb].
    change ((c :: d :: x') ++ y) with (c :: (d :: x') ++ y) in Hs.
    eapply non_decreasing_suffix; [|exact Hs]. now apply suffix_cons_r.
Qed.

Lemma run_calls_cons self ev rest :
  run_calls self (ev :: rest) =
  run_calls (set_recent_blink (after_trim self ev)
               match detect (after_trim self ev) with
               | Ok found => found
               | Raise _ => None
               end) rest.
Proof.
  destruct (recent_events_run self ev) as (found & Hfound & Hrun).
  cbn [run_calls]. rewrite Hrun, Hfound. reflexivity.
Qed.

(** The deque after a series of calls: extend and prune, call by call;
    the settings are not touched. *)
Lemma run_calls_history calls : forall self,
  exists self',
    run_calls self calls = Ok self' /\
    history_length self' = history_length self /\
    onset_confidence_threshold self' = onset_confidence_threshold self /\
    offset_confidence_threshold self' = offset_confidence_threshold self /\
    history self'
      = fold_left (extend_prune (history_length self)) calls (history self).
Proof.
  induction calls as [|ev rest IH]; intros self.
  - exists self. now repeat split.
  - rewrite run_calls_cons.
    destruct (IH (set_recent_blink (after_trim self ev)
                    match detect (after_trim self ev) with
                    | Ok found => found
                    | Raise _ => None
                    end)) as (self' & Hrun & Hhl & Hon & Hoff & Hh).
    exists self'. split; [exact Hrun|]. now repeat split.
Qed.

Lemma prune_short hl (x : list sample) : (length x < 2)%nat -> prune hl x = x.
Proof.
  intros H. rewrite prune_spec. destruct x as [|a [|b t]]; try reflexivity.
  simpl in H. lia.
Qed.

Lemma prune_nonempty hl (x : list sample) : x <> [] -> prune hl x <> [].
Proof.
  intros Hx Hp. apply Hx. apply last_None. rewrite <- (prune_last hl), Hp.
  reflexivity.
Qed.

Lemma fold_prune_suffix hl calls : forall h,
  fold_left (extend_prune hl) calls h `suffix_of` h ++ samples_of calls.
Proof.
  induction calls as [|ev rest IH]; intros h.
  - unfold samples_of. simpl. now rewrite app_nil_r.
  - cbn [fold_left]. etransitivity; [apply IH|].
    unfold samples_of. cbn [map concat]. rewrite app_assoc.
    apply suffix_app, prune_suffix.
Qed.

Lemma fold_prune_nonempty hl calls : forall h,
  h ++ samples_of calls <> [] -> fold_left (extend_prune hl) calls h <> [].
Proof.
  induction calls as [|ev rest IH]; intros h.
  - unfold samples_of. simpl. now rewrite app_nil_r.
  - cbn [fold_left]. unfold samples_of. cbn [map concat]. rewrite app_assoc.
    intros Hne. apply IH. intros Hnil. apply app_eq_nil in Hnil as [Hp Hrest].
    assert (h ++ default [] (pupil_positions ev) = []) as Hhn.
    { destruct (h ++ default [] (pupil_positions ev)) eqn:E; [reflexivity|].
      exfalso. revert Hp. unfold extend_prune. rewrite E. now apply prune_nonempty. }
    apply Hne. rewrite Hhn. exact Hrest.
Qed.

Lemma fold_prune_keeps_two hl calls : forall h,
  0 <= hl -> (2 <= length (h ++ samples_of calls))%nat ->
  (2 <= length (fold_left (extend_prune hl) calls h))%nat.
Proof.
  intros h Hhl. revert h. induction calls as [|ev rest IH]; intros h.
  - unfold samples_of. simpl. now rewrite app_nil_r.
  - cbn [fold_left]. unfold samples_of. cbn [map concat]. rewrite app_assoc.
    intros Hlen. apply IH. fold (samples_of rest).
    rewrite length_app in *. unfold extend_prune.
    destruct (Nat.le_gt_cases 2 (length (h ++ default [] (pupil_positions ev))))
      as [Hge|Hlt].
    + pose proof (prune_keeps_two hl _ Hhl Hge). lia.
    + now rewrite prune_short.
Qed.

Lemma fold_prune_single hl ev rest : forall h,
  non_decreasing (h ++ samples_of (ev :: rest)) = true ->
  fold_left (extend_prune hl) (ev :: rest) h = prune hl (h ++ samples_of (ev :: rest)).
Proof.
  revert ev. induction rest as [|ev' rest IH]; intros ev h Hsorted.
  - unfold samples_of. simpl. now rewrite app_nil_r.
  - change (fold_left (extend_prune hl) (ev :: ev' :: rest) h)
      with (fold_left (extend_prune hl) (ev' :: rest) (extend_prune hl h ev)).
    assert (samples_of (ev :: ev' :: rest)
            = default [] (pupil_positions ev) ++ samples_of (ev' :: rest)) as Hs
      by reflexivity.
    rewrite Hs, app_assoc in *.
    rewrite IH.
    + unfold extend_prune. apply prune_prune_app. intros a b Ha Hb.
      eapply non_decreasing_last_le; [exact Hsorted|exact Ha|exact Hb].
    + eapply non_decreasing_suffix; [|exact Hsorted].
      apply suffix_app, prune_suffix.
Qed.

(** X5.  A series of streaming calls never raises and keeps the settings
    that [get_init_dict] reports.  The deque stays a suffix of everything
    it was given, is never emptied once it holds a sample, stays in
    timestamp order if the stream is, and, with [history_length >= 0],
    holds two samples or more as soon as two samples have arrived. *)
Theorem run_calls_keeps_invariants self calls (vis : bool) :
  exists self',
    run_calls self calls = Ok self' /\
    get_init_dict (Plugin self' vis) = get_init_dict (Plugin self vis) /\
    history self' `suffix_of` history self ++ samples_of calls /\
    (history self ++ samples_of calls <> [] -> history self' <> []) /\
    (non_decreasing (history self ++ samples_of calls) = true ->
     non_decreasing (history self') = true) /\
    (0 <= history_length self ->
     (2 <= length (history self ++ samples_of calls))%nat ->
     (2 <= length (history self'))%nat).
Proof.
  destruct (run_calls_history calls self) as (self' & Hrun & Hhl & Hon & Hoff & Hh).
  exists self'. split; [exact Hrun|].
  split; [unfold get_init_dict; cbn [core visualize]; now rewrite Hhl, Hon, Hoff|].
  rewrite Hh. split; [apply fold_prune_suffix|].
  split; [apply fold_prune_nonempty|].
  split; [|apply fold_prune_keeps_two].
  intros Hs. eapply non_decreasing_suffix; [apply fold_prune_suffix|exact Hs].
Qed.

(** X6.  For a stream in timestamp order the deque after the last of
    several calls is the deque that one call with all their samples at
    once leaves: how the host cuts the stream into calls changes which
    entries are reported, not the window. *)
Theorem window_independent_of_cuts self ev rest old_blinks :
  non_decreasing (history self ++ samples_of (ev :: rest)) = true ->
  exists self' self_once ev_once,
    run_calls self (ev :: rest) = Ok self' /\
    recent_events self (Events (Some (samples_of (ev :: rest))) old_blinks)
      = Ok (self_once, ev_once) /\
    history self' = history self_once.
Proof.
  intros Hsorted.
  destruct (run_calls_history (ev :: rest) self) as (self' & Hrun & _ & _ & _ & Hh).
  destruct (recent_events_run self (Events (Some (samples_of (ev :: rest))) old_blinks))
    as (found & _ & Honce).
  eexists self', _, _. split; [exact Hrun|]. split; [exact Honce|].
  rewrite Hh. now apply fold_prune_single.
Qed.

(** ** Batch: when a recalculation completes *)

Lemma inject_Z_ge_1 (z : Z) : (1 <= z)%Z <-> 1 <= inject_Z z.
Proof. change 1 with (inject_Z 1). now rewrite <- Zle_Qle. Qed.

Lemma inject_Z_above (z k : Z) : inject_Z k < inject_Z z -> (k + 1 <= z)%Z.
Proof. rewrite <- Zlt_Qlt. lia. Qed.

Lemma py_round_positive (x : Q) : (1 <= py_round x)%Z <-> 1 # 2 < x.
Proof.
  unfold py_round.
  pose proof (Qfloor_le x) as Hlo. pose proof (Qlt_floor x) as Hhi.
  rewrite inject_Z_plus in Hhi. change (inject_Z 1) with 1 in Hhi.
  remember (Qfloor x) as f eqn:Hfdef. clear Hfdef.
  destruct (Qcompare (x - inject_Z f) (1 # 2)) eqn:E.
  - apply Qeq_alt in E.
    assert ((1 <= f)%Z <-> 1 # 2 < x) as Hf.
    { rewrite inject_Z_ge_1. split; intros H; [lra|].
      apply (proj1 (inject_Z_ge_1 f)), (inject_Z_above f 0).
      change (inject_Z 0) with 0. lra. }
    destruct (Z.even f) eqn:Hev; [exact Hf|].
    rewrite <- Hf. split; intros H; [|lia].
    assert (f <> 0%Z) by (intros ->; discriminate). lia.
  - apply Qlt_alt in E. rewrite inject_Z_ge_1. split; intros H; [lra|].
    apply (proj1 (inject_Z_ge_1 f)), (inject_Z_above f 0).
    change (inject_Z 0) with 0. lra.
  - apply Qgt_alt in E. split; intros H.
    + assert (1 <= f + 1)%Z as Hf by exact H.
      assert (0 <= inject_Z f) as Hf'.
      { change 0 with (inject_Z 0). rewrite <- Zle_Qle. lia. }
      lra.
    + pose proof (inject_Z_above f (-1)) as Hz. cbn [Z.add] in Hz.
      assert ((-1 + 1 <= f)%Z) as Hf; [|lia].
      apply inject_Z_above. change (inject_Z (-1)) with (-1). lra.
Qed.

Lemma recalculate_raises_early self all_pp e :
  batch_filter_size (history_length (detector self)) all_pp = Raise e ->
  recalculate self all_pp = (self, Raise e).
Proof. intros H. unfold recalculate. now rewrite H. Qed.

(** X7.  A recalculation runs to its end exactly when there is at least
    one sample, the last and first timestamps differ, and
    [len(all_pp) * history_length / total_time] exceeds 1/2, that is when
    the filter size rounds to 1 or more. *)
Theorem recalculate_completes_iff self all_pp :
  snd (recalculate self all_pp) = Ok () <->
  all_pp <> [] /\
  ~ span all_pp == 0 /\
  1 # 2 < inject_Z (Z.of_nat (length all_pp)) * history_length (detector self)
          / span all_pp.
Proof.
  pose proof (batch_filter_size_spec (history_length (detector self)) all_pp) as Hspec.
  destruct all_pp as [|a t].
  - rewrite (recalculate_raises_early _ _ _ Hspec). split; [discriminate|].
    now intros [H _].
  - destruct (Qeq_bool (span (a :: t)) 0) eqn:E.
    + rewrite (recalculate_raises_early _ _ _ Hspec). split; [discriminate|].
      intros (_ & H & _). apply Qeq_bool_iff in E. contradiction.
    + destruct (recalculate_outcome self (a :: t) _ Hspec) as (Hle & Hge & _).
      rewrite <- py_round_positive. split.
      * intros Hok. split; [discriminate|]. split.
        { intros H. apply Qeq_bool_iff in H. congruence. }
        destruct (Z.le_gt_cases 1
          (py_round (inject_Z (Z.of_nat (length (a :: t)))
                     * history_length (detector self) / span (a :: t))))
          as [H|H]; [exact H|].
        rewrite Hle in Hok by lia. discriminate.
      * intros (_ & _ & H). now apply Hge.
Qed.

(** ** Batch: the shape of the response curve *)

Lemma length_add_padded (a b : list Q) :
  length (add_padded a b) = Nat.max (length a) (length b).
Proof.
  revert b. induction a as [|x a IH]; intros [|y b]; simpl; auto.
Qed.

Lemma length_convolve_full (a v : list Q) :
  a <> [] -> v <> [] ->
  length (convolve_full a v) = (length a + length v - 1)%nat.
Proof.
  intros Ha Hv.
  assert (1 <= length v)%nat as Hlen by (destruct v; simpl; [contradiction|lia]).
  induction a as [|x a IH]; [contradiction|].
  change (convolve_full (x :: a) v)
    with (add_padded (map (Qmult x) v) (0 :: convolve_full a v)).
  rewrite length_add_padded, length_map, !length_cons.
  destruct a as [|x' a']; [simpl; lia|].
  rewrite IH by discriminate. simpl. lia.
Qed.

(** The convolution, once the longer operand is put first. *)
Lemma np_convolve_same_Ok (a v c : list Q) :
  np_convolve_same a v = Ok c ->
  exists l sh,
    (l, sh) = (if (length a <? length v)%nat then (v, a) else (a, v)) /\
    l <> [] /\ sh <> [] /\ (length sh <= length l)%nat /\
    c = take (length l) (drop ((length sh - 1) / 2) (convolve_full l sh)).
Proof.
  unfold np_convolve_same.
  destruct (Nat.ltb_spec (length a) (length v)) as [Hlt|Hge]; intros H.
  - exists v, a. destruct v as [|y v]; [discriminate|].
    destruct a as [|x a]; [discriminate|].
    split; [reflexivity|]. repeat split; try discriminate; [lia|]. congruence.
  - exists a, v. destruct a as [|x a]; [discriminate|].
    destruct v as [|y v]; [discriminate|].
    split; [reflexivity|]. repeat split; try discriminate; [lia|]. congruence.
Qed.

Lemma length_np_convolve_same (a v c : list Q) :
  np_convolve_same a v = Ok c -> length c = Nat.max (length a) (length v).
Proof.
  intros H. destruct (np_convolve_same_Ok _ _ _ H) as (l & sh & Hls & Hl & Hs & Hle & ->).
  rewrite length_take, length_drop, length_convolve_full by assumption.
  pose proof (half_le (length sh - 1)).
  assert (1 <= length sh)%nat by (destruct sh; simpl; [contradiction|lia]).
  destruct (Nat.ltb_spec (length a) (length v)); injection Hls as -> ->; lia.
Qed.

(** The steps of a recalculation that completes. *)
Lemma recalculate_completed self all_pp self' :
  recalculate self all_pp = (self', Ok ()) ->
  exists fs blink_filter conv,
    batch_filter_size (history_length (detector self)) all_pp = Ok fs /\
    make_blink_filter fs = Ok blink_filter /\
    np_convolve_same (map confidence all_pp) blink_filter = Ok conv /\
    (1 <= fs)%Z /\
    length blink_filter = Z.to_nat fs /\
    filter_response self' = map (fun x => x / response_scale) conv.
Proof.
  unfold recalculate.
  destruct (batch_filter_size _ all_pp) as [fs|e] eqn:Hfs;
    [|intros [= _ H]; discriminate].
  cbn [mbind result_bind].
  destruct (make_blink_filter fs) as [k|e] eqn:Hk; [|intros [= _ H]; discriminate].
  destruct (np_convolve_same _ k) as [conv|e] eqn:Hc; [|intros [= _ H]; discriminate].
  intros [= <-]. exists fs, k, conv.
  assert (0 <= fs)%Z as Hnn.
  { destruct (Z.lt_ge_cases fs 0) as [Hneg|]; [|assumption].
    rewrite (make_blink_filter_negative fs Hneg) in Hk. discriminate. }
  destruct (make_blink_filter_nonnegative fs Hnn) as (k' & Hk' & Hlen).
  rewrite Hk in Hk'. injection Hk' as <-.
  repeat split; try assumption.
  destruct (Z.eq_dec fs 0%Z) as [->|]; [|lia].
  destruct k; [|discriminate]. rewrite np_convolve_same_empty_kernel in Hc. discriminate.
Qed.

(** X8.  After a recalculation that completes, [timestamps] has one
    entry per sample, while [filter_response] and
    [response_classification] have [max(len(all_pp), filter_size)]
    entries: a filter longer than the recording makes the response curve
    longer than [timestamps]. *)
Theorem response_curve_lengths self all_pp self' :
  recalculate self all_pp = (self', Ok ()) ->
  exists fs,
    batch_filter_size (history_length (detector self)) all_pp = Ok fs /\
    (1 <= fs)%Z /\
    length (timestamps self') = length all_pp /\
    length (filter_response self') = Nat.max (length all_pp) (Z.to_nat fs) /\
    length (response_classification self') = length (filter_response self').
Proof.
  intros Hrun.
  destruct (recalculate_completed _ _ _ Hrun)
    as (fs & k & conv & Hfs & _ & Hc & Hpos & Hlen & Hresp).
  destruct (recalculate_classification _ _ _ Hrun) as (_ & Hts & Hclass).
  exists fs. split; [exact Hfs|]. split; [exact Hpos|].
  split; [rewrite Hts; apply length_map|].
  split; [|rewrite Hclass; apply length_map].
  rewrite Hresp, length_map, (length_np_convolve_same _ _ _ Hc), length_map, Hlen.
  reflexivity.
Qed.

(** X9.  A recalculation that raises leaves [filter_response] and
    [response_classification] as they were; [timestamps] is left as well
    unless the failure is the [ValueError] of a filter size of 0, raised
    by the convolution after [timestamps] has been replaced. *)
Theorem failed_recalculation_state self all_pp e :
  snd (recalculate self all_pp) = Raise e ->
  let self' := fst (recalculate self all_pp) in
  detector self' = detector self /\
  filter_response self' = filter_response self /\
  response_classification self' = response_classification self /\
  (batch_filter_size (history_length (detector self)) all_pp = Ok 0%Z ->
   e = ValueError /\ timestamps self' = map timestamp all_pp) /\
  (batch_filter_size (history_length (detector self)) all_pp <> Ok 0%Z ->
   self' = self).
Proof.
  unfold recalculate.
  destruct (batch_filter_size _ all_pp) as [fs|e'] eqn:Hfs.
  - cbn [mbind result_bind].
    destruct (make_blink_filter fs) as [k|e'] eqn:Hk.
    + destruct (np_convolve_same _ k) as [conv|e'] eqn:Hc; [discriminate|].
      intros [= <-]. cbn [fst].
      split; [reflexivity|]. split; [reflexivity|]. split; [reflexivity|]. split.
      * intros [= ->]. change (make_blink_filter 0) with (@Ok (list Q) []) in Hk.
        injection Hk as <-. rewrite np_convolve_same_empty_kernel in Hc.
        split; [congruence|reflexivity].
      * intros Hnz. exfalso.
        assert (0 <= fs)%Z as Hnn.
        { destruct (Z.lt_ge_cases fs 0) as [Hneg|]; [|assumption].
          rewrite (make_blink_filter_negative fs Hneg) in Hk. discriminate. }
        destruct (make_blink_filter_nonnegative fs Hnn) as (k' & Hk' & Hlen).
        rewrite Hk in Hk'. injection Hk' as <-.
        assert (map confidence all_pp <> []) as Hne.
        { rewrite batch_filter_size_spec in Hfs. now destruct all_pp. }
        destruct k as [|y k].
        { apply Hnz. f_equal. simpl in Hlen. lia. }
        destruct (np_convolve_same_nonempty (map confidence all_pp) (y :: k) Hne)
          as [c Hc']; [discriminate|]. congruence.
    + intros [= <-]. cbn [fst].
      split; [reflexivity|]. split; [reflexivity|]. split; [reflexivity|]. split.
      * intros [= ->]. discriminate.
      * reflexivity.
  - intros [= <-]. cbn [fst].
    split; [reflexivity|]. split; [reflexivity|]. split; [reflexivity|]. split.
    + intros [=].
    + reflexivity.
Qed.

Lemma recalculate_unfold self all_pp :
  recalculate self all_pp =
  match batch_filter_size (history_length (detector self)) all_pp
        ≫= make_blink_filter with
  | Raise e => (self, Raise e)
  | Ok blink_filter =>
      match np_convolve_same (map confidence all_pp) blink_filter with
      | Raise e => (set_timestamps self (map timestamp all_pp), Raise e)
      | Ok conv =>
          (Offline (detector self)
             (map (fun x => x / response_scale) conv)
             (map (batch_class (onset_confidence_threshold (detector self)))
                (map (fun x => x / response_scale) conv))
             (map timestamp all_pp), Ok ())
      end
  end.
Proof.
  unfold recalculate.
  destruct (_ ≫= _) as [k|e]; [|reflexivity].
  destruct (np_convolve_same _ k) as [conv|e]; [|reflexivity].
  rewrite classify_response_map. reflexivity.
Qed.

(** X10.  A recalculation does not depend on the arrays left by an
    earlier one: running it again on the same samples changes nothing. *)
Theorem recalculate_idempotent self all_pp :
  recalculate (fst (recalculate self all_pp)) all_pp = recalculate self all_pp.
Proof.
  rewrite (recalculate_unfold self).
  destruct (_ ≫= _) as [k|e] eqn:Hk; cbn [fst].
  - destruct (np_convolve_same _ k) as [conv|e] eqn:Hc; cbn [fst];
      rewrite recalculate_unfold; cbn [detector set_timestamps];
      now rewrite Hk, Hc.
  - rewrite recalculate_unfold. now rewrite Hk.
Qed.

(** X11.  Whatever the sign of the onset threshold, the class at an index
    is -1 exactly when the response there is below minus the threshold,
    +1 exactly when it is above the threshold and not below minus the
    threshold, and 0 exactly when it is neither: where the two masks
    overlap, the offsets, written last, win. *)
Theorem batch_classes_offsets_last self all_pp self' :
  let on := onset_confidence_threshold (detector self) in
  recalculate self all_pp = (self', Ok ()) ->
  forall i r, filter_response self' !! i = Some r ->
    exists c, response_classification self' !! i = Some c /\
      (c = -1 <-> r < - on) /\
      (c = 1 <-> on < r /\ ~ r < - on) /\
      (c = 0 <-> ~ on < r /\ ~ r < - on).
Proof.
  intros on Hrun i r Hr.
  destruct (recalculate_classification _ _ _ Hrun) as (_ & _ & Hclass).
  fold on in Hclass. rewrite Hclass, lookup_map, Hr.
  exists (batch_class on r). split; [reflexivity|]. unfold batch_class.
  destruct (Qltb r (- on)) eqn:Hoff;
    [apply Qltb_lt in Hoff | apply Qltb_ge in Hoff];
    (destruct (Qltb on r) eqn:Hons;
     [apply Qltb_lt in Hons | apply Qltb_ge in Hons]);
    (split; [|split]); split; intros H;
    try discriminate H; try reflexivity; try lra;
    try (split; lra); try (destruct H; lra); try (destruct H; contradiction).
Qed.

(** ** Batch: the response at a sample *)

Lemma entry_nil (k : nat) : entry [] k = 0.
Proof. unfold entry. now rewrite lookup_nil. Qed.

Lemma entry_add_padded (a b : list Q) (k : nat) :
  entry (add_padded a b) k == entry a k + entry b k.
Proof.
  revert b k. induction a as [|x a IH]; intros b k.
  - change (add_padded [] b) with b. rewrite entry_nil. ring.
  - destruct b as [|y b].
    + change (add_padded (x :: a) []) with (x :: a). rewrite entry_nil. ring.
    + destruct k as [|k]; [reflexivity|]. exact (IH b k).
Qed.

Lemma entry_map_mult (x : Q) (v : list Q) (k : nat) :
  entry (map (Qmult x) v) k == x * entry v k.
Proof.
  unfold entry. rewrite lookup_map. destruct (v !! k); simpl; ring.
Qed.

(** The entries of the full convolution are the convolution sums. *)
Lemma entry_convolve_full (a v : list Q) : forall k,
  entry (convolve_full a v) k == conv_sum a v k.
Proof.
  induction a as [|x a IH]; intros k; [reflexivity|].
  change (convolve_full (x :: a) v)
    with (add_padded (map (Qmult x) v) (0 :: convolve_full a v)).
  rewrite entry_add_padded, entry_map_mult. cbn [conv_sum].
  destruct k as [|k]; [reflexivity|].
  change (entry (0 :: convolve_full a v) (S k)) with (entry (convolve_full a v) k).
  now rewrite IH.
Qed.

Lemma conv_sum_base (v : list Q) : forall (a : list Q) (k : nat),
  (k < length v)%nat -> (k < length a)%nat ->
  conv_sum a v k == sum_products (take (S k) a) (rev (take (S k) v)).
Proof.
  intros a k. revert a. induction k as [|k IH]; intros [|x a] Hv Ha;
    try (simpl in Ha; lia).
  - destruct v as [|y v]; [simpl in Hv; lia|].
    cbn. unfold entry. simpl. ring.
  - destruct (lookup_lt_is_Some_2 v (S k) Hv) as [y Hy].
    rewrite (take_S_r v (S k) y Hy), rev_app_distr.
    cbn [conv_sum rev app take sum_products].
    change (take (S k) a) with (take (S k) a).
    rewrite (IH a) by (simpl in Ha; lia).
    unfold entry. rewrite Hy. reflexivity.
Qed.

Lemma conv_sum_skip (v : list Q) (x : Q) (a : list Q) (k : nat) :
  (length v <= S k)%nat -> conv_sum (x :: a) v (S k) == conv_sum a v k.
Proof.
  intros H. cbn [conv_sum]. unfold entry.
  rewrite (lookup_ge_None_2 v (S k)) by lia. simpl. ring.
Qed.

(** Past the first [N - 1] entries the convolution sum is the dot product
    of a window of [N] samples with the kernel read backwards. *)
Lemma conv_sum_window (v : list Q) (d : nat) : forall (a : list Q),
  (1 <= length v)%nat -> (length v - 1 + d < length a)%nat ->
  conv_sum a v (length v - 1 + d)
  == sum_products (take (length v) (drop d a)) (rev v).
Proof.
  induction d as [|d IH]; intros a Hv Ha.
  - rewrite Nat.add_0_r, conv_sum_base by lia.
    replace (S (length v - 1)) with (length v) by lia.
    now rewrite firstn_all.
  - destruct a as [|x a]; [simpl in Ha; lia|].
    replace (length v - 1 + S d)%nat with (S (length v - 1 + d)) by lia.
    rewrite conv_sum_skip by lia.
    apply IH; [exact Hv|simpl in Ha; lia].
Qed.

(** The kernel read backwards, in closed form. *)
Lemma reversed_kernel_dot (w : list Q) :
  let n := length w in
  sum_products w
    (rev (repeat (1 / inject_Z (Z.of_nat n)) (n / 2)
            ++ repeat (1 / inject_Z (Z.of_nat n) * -1) (n - n / 2)))
  == (sum_of (drop (n - n / 2) w) - sum_of (take (n - n / 2) w))
     * (1 / inject_Z (Z.of_nat n)).
Proof.
  intros n. pose proof (half_le n) as Hle.
  rewrite rev_app_distr, !rev_repeat.
  rewrite <- (take_drop (n - n / 2) w) at 1.
  rewrite sum_products_app by (rewrite length_take, repeat_length; fold n; lia).
  assert (forall (a : list Q) p m, length a = m ->
            sum_products a (repeat p m) == p * sum_of a) as Hconst
    by (intros a p m <-; apply sum_products_const).
  rewrite (Hconst (take (n - n / 2) w)) by (rewrite length_take; fold n; lia).
  rewrite (Hconst (drop (n - n / 2) w)) by (rewrite length_drop; fold n; lia).
  ring.
Qed.

Lemma half_split (n : nat) : (1 <= n)%nat -> ((n - 1) / 2 + n / 2 = n - 1)%nat.
Proof.
  intros H. destruct (Nat.Even_or_Odd n) as [[m ->]|[m ->]].
  - replace (2 * m - 1)%nat with (1 + (m - 1) * 2)%nat by lia.
    rewrite Nat.div_add by lia. rewrite (Nat.mul_comm 2 m), Nat.div_mul by lia.
    simpl. lia.
  - replace (2 * m + 1 - 1)%nat with (m * 2)%nat by lia.
    rewrite Nat.div_mul by lia.
    replace (2 * m + 1)%nat with (1 + m * 2)%nat by lia.
    rewrite Nat.div_add by lia. simpl. lia.
Qed.

(** X12.  After a recalculation whose filter is no longer than the
    recording, the response at a sample [i] far enough from both ends is
    computed from the window of [filter_size] confidences starting at
    [i - filter_size // 2]: the sum of its last [filter_size // 2]
    confidences minus the sum of the others, over [filter_size] and 0.45.
    The convolution reads the kernel backwards, so for an even filter
    size this is minus the response that the streaming detector computes
    on the same window. *)
Theorem batch_response_at_sample self all_pp self' :
  recalculate self all_pp = (self', Ok ()) ->
  exists fs,
    batch_filter_size (history_length (detector self)) all_pp = Ok fs /\
    let n := Z.to_nat fs in
    (n <= length all_pp)%nat ->
    forall i,
      (n / 2 <= i)%nat -> (i + (n - 1) / 2 < length all_pp)%nat ->
      let w := take n (drop (i - n / 2) (map confidence all_pp)) in
      exists x,
        filter_response self' !! i = Some x /\
        length w = n /\
        x == (sum_of (drop (n - n / 2) w) - sum_of (take (n - n / 2) w))
             * (1 / inject_Z (Z.of_nat n)) / response_scale /\
        (Nat.even n = true -> exists r, matched_filter w = Ok r /\ x == - r).
Proof.
  intros Hrun.
  destruct (recalculate_completed _ _ _ Hrun)
    as (fs & bf & conv & Hfs & Hk & Hc & Hpos & Hlen & Hresp).
  exists fs. split; [exact Hfs|]. intros n Hn i Hi1 Hi2 w.
  assert (1 <= n)%nat as Hn1 by (unfold n; lia).
  rewrite <- (Z2Nat.id fs) in Hk by lia. fold n in Hk, Hlen.
  assert (bf = repeat (1 / inject_Z (Z.of_nat n)) (n / 2)
               ++ repeat (1 / inject_Z (Z.of_nat n) * -1) (n - n / 2)) as Hbf
    by (rewrite make_blink_filter_nat in Hk; congruence).
  set (a := map confidence all_pp) in *.
  assert (length a = length all_pp) as Ha by apply length_map.
  pose proof (half_le n) as Hhalf. pose proof (half_le (n - 1)) as Hhalf'.
  pose proof (half_split n Hn1) as Hsplit.
  assert (length w = n) as Hw.
  { unfold w. rewrite length_take, length_drop. lia. }
  destruct (np_convolve_same_Ok _ _ _ Hc) as (l & sh & Hls & Hl & Hsh & _ & Hconv).
  destruct (Nat.ltb_spec (length a) (length bf)) as [Hlt|_]; [lia|].
  injection Hls as -> ->.
  assert (length (convolve_full a bf) = (length a + n - 1)%nat) as Hfull
    by (rewrite length_convolve_full by assumption; lia).
  destruct (lookup_lt_is_Some_2 (convolve_full a bf) ((n - 1) / 2 + i)) as [x0 Hx0];
    [lia|].
  assert (conv !! i = Some x0) as Hci.
  { rewrite Hconv, lookup_take_lt, lookup_drop, Hlen by lia. exact Hx0. }
  exists (x0 / response_scale).
  split; [rewrite Hresp, lookup_map, Hci; reflexivity|].
  split; [exact Hw|].
  assert (x0 == sum_products w (rev bf)) as Hdot.
  { pose proof (entry_convolve_full a bf ((n - 1) / 2 + i)) as He.
    unfold entry in He. rewrite Hx0 in He. cbn [default from_option id] in He.
    rewrite He.
    replace ((n - 1) / 2 + i)%nat with (length bf - 1 + (i - n / 2))%nat by lia.
    rewrite conv_sum_window by lia. now rewrite Hlen. }
  pose proof (reversed_kernel_dot w) as Hrev. cbv zeta in Hrev.
  rewrite Hw, <- Hbf in Hrev.
  split; [now rewrite Hdot, Hrev|].
  intros Heven.
  pose proof (matched_filter_unfold w) as Hr. cbv zeta in Hr. rewrite Hw in Hr.
  eexists. split; [exact Hr|].
  pose proof (raw_response_half_sums w) as Hraw. cbv zeta in Hraw.
  rewrite Hw in Hraw. rewrite Hraw, Hdot, Hrev, (even_halves n Heven).
  unfold Qdiv. ring.
Qed.

(** ** Batch: notifications and settings *)

Lemma should_recalculate_subject :
  should_recalculate !! "subject" = Some (VStr "blink_detection.should_recalculate").
Proof. unfold should_recalculate. apply lookup_insert_eq. Qed.

Lemma on_notify_should_recalculate self all_pp :
  on_notify self all_pp should_recalculate =
  (fst (recalculate self all_pp), outcome_of (snd (recalculate self all_pp))).
Proof. unfold on_notify. rewrite should_recalculate_subject. reflexivity. Qed.

(** X13.  [on_notify] looks at the subject only: without one it raises
    [KeyError] and touches nothing; with either of the two recalculation
    subjects it is [recalculate], whatever else the dict holds; with any
    other subject the plugin is left as it is, and only "should_export"
    can raise, when its range or export directory is missing. *)
Theorem on_notify_dispatch self all_pp (notification : gmap string value) :
  (notification !! "subject" = None ->
   on_notify self all_pp notification = (self, RaisedKeyError "subject")) /\
  (forall subject : string, notification !! "subject" = Some (VStr subject) ->
     subject = "blink_detection.should_recalculate"
       \/ subject = "pupil_positions_changed" ->
     on_notify self all_pp notification =
     (fst (recalculate self all_pp), outcome_of (snd (recalculate self all_pp)))) /\
  (forall v, notification !! "subject" = Some v ->
     v <> VStr "blink_detection.should_recalculate" ->
     v <> VStr "pupil_positions_changed" ->
     fst (on_notify self all_pp notification) = self /\
     (v <> VStr "should_export" ->
      snd (on_notify self all_pp notification) = Returned) /\
     (v = VStr "should_export" ->
      snd (on_notify self all_pp notification) =
        if notification !! "range" is None then RaisedKeyError "range"
        else if notification !! "export_dir" is None then RaisedKeyError "export_dir"
        else Returned)).
Proof.
  unfold on_notify. split; [now intros ->|]. split.
  - intros subject -> [-> | ->]; reflexivity.
  - intros v -> Hne1 Hne2.
    assert (forall t : string, v <> VStr t -> is_subject v t = false) as Hno.
    { intros t' Hs. destruct v as [t| |]; try reflexivity.
      cbn [is_subject]. apply String.eqb_neq. congruence. }
    rewrite (Hno _ Hne1), (Hno _ Hne2).
    destruct (is_subject v "should_export") eqn:Hexp.
    + assert (v = VStr "should_export") as ->.
      { destruct v as [t| |]; try discriminate. cbn [is_subject] in Hexp.
        apply String.eqb_eq in Hexp. now subst. }
      destruct (notification !! "range"), (notification !! "export_dir");
        (split; [reflexivity|]); split; (reflexivity || (intros H; now elim H)
                                         || (intros _; reflexivity)).
    + split; [reflexivity|]. split; [reflexivity|].
      intros ->. discriminate.
Qed.

Lemma differs_false c val : differs (Some c) val = false <-> c == val.
Proof.
  unfold differs. rewrite negb_false_iff. apply Qeq_bool_iff.
Qed.

(** X14.  Assigning [history_length] on the batch plugin stores the value
    and leaves the arrays alone.  A value equal to the old one queues
    nothing; any other value queues exactly one "should_recalculate"
    notification, and once the host delivers it the response curve is the
    one [recalculate] derives from the new value. *)
Theorem history_length_change_recalculates self all_pp val :
  let self1 := fst (set_history_length self val) in
  let queued := snd (set_history_length self val) in
  history_length (detector self1) = val /\
  filter_response self1 = filter_response self /\
  response_classification self1 = response_classification self /\
  timestamps self1 = timestamps self /\
  (history_length (detector self) == val -> queued = []) /\
  (~ history_length (detector self) == val ->
   queued = [should_recalculate] /\
   on_notify self1 all_pp should_recalculate =
     (fst (recalculate self1 all_pp), outcome_of (snd (recalculate self1 all_pp))) /\
   batch_filter_size (history_length (detector self1)) all_pp
     = batch_filter_size val all_pp).
Proof.
  cbn [fst snd set_history_length detector history_length filter_response
       response_classification timestamps].
  repeat (split; [reflexivity|]). unfold setter_notifications. split.
  - intros H. apply differs_false in H. now rewrite H.
  - intros H. destruct (differs _ val) eqn:E.
    + split; [reflexivity|]. split; [apply on_notify_should_recalculate|reflexivity].
    + apply differs_false in E. contradiction.
Qed.

(** X15.  Assigning a new [offset_confidence_threshold] queues a
    recalculation, yet the recalculation it triggers yields the response,
    the classes and the timestamps that [recalculate] yields without the
    change, and ends the same way. *)
Theorem offset_threshold_change_is_idle self all_pp val :
  let self1 := fst (set_offset_threshold self val) in
  let queued := snd (set_offset_threshold self val) in
  (~ offset_confidence_threshold (detector self) == val ->
   queued = [should_recalculate]) /\
  let after := on_notify self1 all_pp should_recalculate in
  filter_response (fst after) = filter_response (fst (recalculate self all_pp)) /\
  response_classification (fst after)
    = response_classification (fst (recalculate self all_pp)) /\
  timestamps (fst after) = timestamps (fst (recalculate self all_pp)) /\
  snd after = outcome_of (snd (recalculate self all_pp)).
Proof.
  cbn [fst snd set_offset_threshold]. split.
  - intros H. unfold setter_notifications. destruct (differs _ val) eqn:E;
      [reflexivity|]. apply differs_false in E. contradiction.
  - rewrite on_notify_should_recalculate, recalculate_ignores_offset_threshold.
    cbn [fst snd]. now repeat split.
Qed.

(** X16.  Constructing the batch plugin queues exactly three
    "should_recalculate" notifications, whatever the arguments; the new
    instance reports these arguments as its settings, its arrays are
    empty, and delivering any of the queued notifications is a call of
    [recalculate]. *)
Theorem offline_init_queues_three (d : init_dict) (all_pp : list sample) :
  let '(self, vis, queued) := Offline_init d in
  queued = [should_recalculate; should_recalculate; should_recalculate] /\
  get_init_dict (Plugin (detector self) vis) = d /\
  filter_response self = [] /\ response_classification self = [] /\
  timestamps self = [] /\
  forall n, n ∈ queued ->
    on_notify self all_pp n =
    (fst (recalculate self all_pp), outcome_of (snd (recalculate self all_pp))).
Proof.
  cbn [Offline_init]. split; [reflexivity|].
  split; [now destruct d|]. repeat (split; [reflexivity|]).
  intros n Hn. cbn [setter_notifications differs app] in Hn.
  assert (n = should_recalculate) as ->.
  { repeat (apply elem_of_cons in Hn as [Hn|Hn]; [exact Hn|]). inversion Hn. }
  apply on_notify_should_recalculate.
Qed.

(** ** Batch: what the timeline draws *)

Lemma map_fst_zip {A B} (l : list A) (k : list B) :
  (length l <= length k)%nat -> map fst (zip l k) = l.
Proof.
  revert k. induction l as [|x l IH]; intros [|y k] H; simpl in *;
    try reflexivity; try lia.
  f_equal. apply IH. lia.
Qed.

Lemma map_snd_zip {A B} (l : list A) (k : list B) :
  map snd (zip l k) = take (length l) k.
Proof.
  revert k. induction l as [|x l IH]; intros [|y k]; simpl; try reflexivity.
  f_equal. apply IH.
Qed.

Lemma length_zip {A B} (l : list A) (k : list B) :
  length (zip l k) = Nat.min (length l) (length k).
Proof. revert k. induction l as [|x l IH]; intros [|y k]; simpl; auto. Qed.

Lemma recalculate_curve_covers_samples self all_pp self' :
  recalculate self all_pp = (self', Ok ()) ->
  detector self' = detector self /\
  timestamps self' = map timestamp all_pp /\
  (1 <= length all_pp)%nat /\
  (length all_pp <= length (filter_response self'))%nat /\
  length (response_classification self') = length (filter_response self').
Proof.
  intros Hrun.
  destruct (recalculate_completed _ _ _ Hrun)
    as (fs & k & conv & Hfs & _ & Hc & _ & _ & Hresp).
  destruct (recalculate_classification _ _ _ Hrun) as (Hdet & Hts & Hclass).
  split; [exact Hdet|]. split; [exact Hts|].
  split.
  { rewrite batch_filter_size_spec in Hfs. destruct all_pp; [discriminate|simpl; lia]. }
  split; [|rewrite Hclass; apply length_map].
  rewrite Hresp, length_map, (length_np_convolve_same _ _ _ Hc), length_map. lia.
Qed.

(** X17.  [draw_activation] draws nothing, and does not look at
    [g_pool.timestamps], as long as [timestamps] or [filter_response] is
    empty.  After a recalculation that completed it needs a non-empty
    [g_pool.timestamps] (else [IndexError]) and then plots one response
    point and one class point per sample, at the samples' timestamps,
    with the threshold lines at the onset threshold and at minus the
    offset threshold. *)
Theorem timeline_points :
  (forall self g_ts scale,
     timestamps self = [] \/ filter_response self = [] ->
     draw_activation self g_ts scale = Ok None) /\
  (forall self all_pp self' g_ts scale,
     recalculate self all_pp = (self', Ok ()) ->
     (g_ts = [] -> draw_activation self' g_ts scale = Raise IndexError) /\
     (forall t0 t1, head g_ts = Some t0 -> last g_ts = Some t1 ->
        exists d,
          draw_activation self' g_ts scale = Ok (Some d) /\
          coord_system d = (t0, t1, 1, -1) /\
          map fst (response_points d) = map timestamp all_pp /\
          map snd (response_points d)
            = take (length all_pp) (filter_response self') /\
          map fst (class_points d) = map timestamp all_pp /\
          map snd (class_points d)
            = take (length all_pp) (response_classification self') /\
          thresholds d =
            [(t0, onset_confidence_threshold (detector self));
             (t1, onset_confidence_threshold (detector self));
             (t0, - offset_confidence_threshold (detector self));
             (t1, - offset_confidence_threshold (detector self))])).
Proof.
  split.
  - intros self g_ts scale H. unfold draw_activation.
    rewrite length_zip. destruct H as [-> | ->]; [reflexivity|].
    now rewrite Nat.min_0_r.
  - intros self all_pp self' g_ts scale Hrun.
    destruct (recalculate_curve_covers_samples _ _ _ Hrun)
      as (Hdet & Hts & Hne & Hcover & Hclass).
    assert (length (timestamps self') = length all_pp) as Hlen
      by (rewrite Hts; apply length_map).
    unfold draw_activation. rewrite length_zip, Hlen.
    destruct (Nat.eqb_spec (Nat.min (length all_pp) (length (filter_response self'))) 0)
      as [Hz|_]; [lia|].
    rewrite py_index_0, py_index_last. split.
    + intros ->. reflexivity.
    + intros t0 t1 -> ->. cbn [mbind result_bind]. eexists. split; [reflexivity|].
      cbn [coord_system response_points class_points thresholds].
      rewrite !map_snd_zip, Hlen, Hdet.
      rewrite !map_fst_zip by lia. rewrite Hts. now repeat split.
Qed.

(** ** Streaming: a constant signal *)


(** ** Sample runs of the further properties *)

Lemma raw_response_range_witness :
  exists r,
    matched_filter [0; 1; 1] = Ok r /\
    r * response_scale <= 1 # 2 /\
    r * response_scale < - (1 # 2).
Proof.
  destruct (raw_response_range [0; 1; 1]) as (r & Hr & Hup & _ & _ & Hodd).
  - repeat constructor; discriminate.
  - simpl. lia.
  - exists r. split; [exact Hr|]. split; [exact Hup|].
    destruct (Hodd eq_refl) as (r' & Hr' & _ & Hlow).
    change (matched_filter [0; 1; 1] = Ok r') in Hr'.
    rewrite Hr in Hr'. injection Hr' as <-. exact Hlow.
Defined.

Lemma window_independent_of_cuts_witness :
  exists self' self_once ev_once,
    run_calls ex_detector [ex_drop; ex_recovery] = Ok self' /\
    recent_events ex_detector
      (Events (Some (samples_of [ex_drop; ex_recovery])) None)
      = Ok (self_once, ev_once) /\
    history self' = history self_once.
Proof.
  apply (window_independent_of_cuts ex_detector ex_drop [ex_recovery] None).
  reflexivity.
Defined.

Lemma run_calls_keeps_invariants_witness :
  exists self',
    run_calls ex_detector [ex_drop; ex_recovery] = Ok self' /\
    get_init_dict (Plugin self' true) = get_init_dict (Plugin ex_detector true) /\
    non_decreasing (history self') = true /\
    (2 <= length (history self'))%nat.
Proof.
  destruct (run_calls_keeps_invariants ex_detector [ex_drop; ex_recovery] true)
    as (self' & Hrun & Hcfg & _ & _ & Hsorted & Htwo).
  exists self'. split; [exact Hrun|]. split; [exact Hcfg|].
  split; [apply Hsorted; reflexivity|].
  apply Htwo; [discriminate|vm_compute; lia].
Defined.

Lemma response_curve_lengths_witness :
  exists fs,
    batch_filter_size (history_length (detector ex_offline_half)) ex_brief = Ok fs /\
    (1 <= fs)%Z /\
    length (timestamps (fst (recalculate ex_offline_half ex_brief))) = length ex_brief /\
    length (filter_response (fst (recalculate ex_offline_half ex_brief)))
      = Nat.max (length ex_brief) (Z.to_nat fs) /\
    length (response_classification (fst (recalculate ex_offline_half ex_brief)))
      = length (filter_response (fst (recalculate ex_offline_half ex_brief))).
Proof.
  apply (response_curve_lengths ex_offline_half ex_brief).
  vm_compute. reflexivity.
Defined.

Lemma failed_recalculation_state_witness :
  filter_response (fst (recalculate ex_offline ex_sparse)) = filter_response ex_offline /\
  timestamps (fst (recalculate ex_offline ex_sparse)) = map timestamp ex_sparse.
Proof.
  destruct (failed_recalculation_state ex_offline ex_sparse ValueError)
    as (_ & Hresp & _ & Hzero & _); [vm_compute; reflexivity|].
  split; [exact Hresp|]. apply Hzero. vm_compute. reflexivity.
Defined.

Lemma batch_classes_offsets_last_witness :
  exists r c,
    filter_response (fst (recalculate ex_offline ex_recording)) !! 0%nat = Some r /\
    response_classification (fst (recalculate ex_offline ex_recording)) !! 0%nat
      = Some c /\
    (c = -1 <-> r < - onset_confidence_threshold (detector ex_offline)).
Proof.
  destruct (lookup_lt_is_Some_2
              (filter_response (fst (recalculate ex_offline ex_recording))) 0)
    as [r Hr]; [vm_compute; lia|].
  destruct (batch_classes_offsets_last ex_offline ex_recording
              (fst (recalculate ex_offline ex_recording)))
    with (i := 0%nat) (r := r) as (c & Hc & Hneg & _);
    [vm_compute; reflexivity|exact Hr|].
  exists r, c. split; [exact Hr|]. split; [exact Hc|exact Hneg].
Defined.

Lemma batch_response_at_sample_witness :
  exists x r,
    filter_response (fst (recalculate ex_offline ex_recording)) !! 10%nat = Some x /\
    matched_filter (take 6 (drop 7 (map confidence ex_recording))) = Ok r /\
    x == - r.
Proof.
  destruct (batch_response_at_sample ex_offline ex_recording
              (fst (recalculate ex_offline ex_recording)))
    as (fs & Hfs & Hat); [vm_compute; reflexivity|].
  assert (fs = 6%Z) as -> by (vm_compute in Hfs; congruence).
  destruct (Hat ltac:(vm_compute; lia) 10%nat ltac:(vm_compute; lia)
              ltac:(vm_compute; lia)) as (x & Hx & _ & _ & Heven).
  destruct (Heven eq_refl) as (r & Hr & Hxr).
  exists x, r. split; [exact Hx|]. split; [exact Hr|exact Hxr].
Defined.


Lemma on_notify_dispatch_witness :
  on_notify ex_offline ex_recording ∅ = (ex_offline, RaisedKeyError "subject") /\
  on_notify ex_offline ex_recording ex_export_request
    = (ex_offline, RaisedKeyError "range").
Proof.
  destruct (on_notify_dispatch ex_offline ex_recording ∅) as (Hnone & _ & _).
  destruct (on_notify_dispatch ex_offline ex_recording ex_export_request)
    as (_ & _ & Hother).
  split; [apply Hnone; reflexivity|].
  destruct (Hother (VStr "should_export")) as (Hself & _ & Hexp);
    [reflexivity|discriminate|discriminate|].
  rewrite (surjective_pairing (on_notify ex_offline ex_recording ex_export_request)).
  rewrite Hself, (Hexp eq_refl). reflexivity.
Defined.

Lemma history_length_change_recalculates_witness :
  snd (set_history_length ex_offline (1 # 2)) = [should_recalculate] /\
  snd (set_history_length ex_offline (1 # 5)) = [].
Proof.
  destruct (history_length_change_recalculates ex_offline ex_recording (1 # 2))
    as (_ & _ & _ & _ & _ & Hnew).
  destruct (history_length_change_recalculates ex_offline ex_recording (1 # 5))
    as (_ & _ & _ & _ & Hsame & _).
  split; [apply Hnew; discriminate|apply Hsame; reflexivity].
Defined.

Lemma offset_threshold_change_is_idle_witness :
  snd (set_offset_threshold ex_offline (1 # 4)) = [should_recalculate] /\
  filter_response
    (fst (on_notify (fst (set_offset_threshold ex_offline (1 # 4))) ex_recording
            should_recalculate))
  = filter_response (fst (recalculate ex_offline ex_recording)).
Proof.
  destruct (offset_threshold_change_is_idle ex_offline ex_recording (1 # 4))
    as (Hq & Hresp & _).
  split; [apply Hq; discriminate|exact Hresp].
Defined.

Lemma timeline_points_witness :
  draw_activation ex_offline [] 1 = Ok None /\
  draw_activation (fst (recalculate ex_offline ex_recording)) [] 1 = Raise IndexError /\
  exists d,
    draw_activation (fst (recalculate ex_offline ex_recording)) ex_world_timestamps 1
      = Ok (Some d) /\
    map fst (response_points d) = map timestamp ex_recording.
Proof.
  destruct timeline_points as [Hidle Hdrawn].
  split; [apply Hidle; now left|].
  destruct (Hdrawn ex_offline ex_recording (fst (recalculate ex_offline ex_recording))
              [] 1) as [Hempty _]; [vm_compute; reflexivity|].
  split; [now apply Hempty|].
  destruct (Hdrawn ex_offline ex_recording (fst (recalculate ex_offline ex_recording))
              ex_world_timestamps 1) as [_ Hpoints]; [vm_compute; reflexivity|].
  destruct (Hpoints 0 1 eq_refl eq_refl) as (d & Hd & _ & Hfst & _).
  exists d. split; [exact Hd|exact Hfst].
Defined.
